(** * mcp-mysql: a shallow embedding of [main.py] (the MCP server) and of the
    [NLtoSQLConverter] of [test.py] (the client), with their properties.

    Text is modelled as [list ascii] (Python [str] restricted to the
    8-bit characters U+0000..U+00FF); [str.lower], [str.strip] and [repr]
    are modelled on that whole range, where the Latin-1 range is closed
    under them.  Python exceptions are values of [exn] threaded through
    a small state-and-exception monad; the database, the MCP session and the
    language model are collaborators given as type classes. *)

From Stdlib Require Import String Ascii List ZArith Bool Lia.
From stdpp Require Import base gmap strings.

Set Warnings "-register-all".

(* ================================================================== *)
(** ** Text *)

Definition text := list ascii.

(** String literals as text. *)
Definition t (s : string) : text := list_ascii_of_string s.

Definition ascii_eqb := Ascii.eqb.

Fixpoint text_eqb (a b : text) : bool :=
  match a, b with
  | [], [] => true
  | x :: a', y :: b' => ascii_eqb x y && text_eqb a' b'
  | _, _ => false
  end.

(** [str.lower] on one character of U+0000..U+00FF: 'A'..'Z' and the
    Latin-1 capitals U+00C0..U+00DE (but U+00D7, the multiplication sign)
    move down by 32; all others are unchanged. *)
Definition lower_char (c : ascii) : ascii :=
  let n := nat_of_ascii c in
  if ((65 <=? n) && (n <=? 90)) || ((192 <=? n) && (n <=? 222) && negb (n =? 215))
  then ascii_of_nat (n + 32) else c.

Definition py_lower (s : text) : text := map lower_char s.

(** [str.isspace] on U+0000..U+00FF, the characters [str.strip()]
    removes: \t \n \v \f \r, \x1c..\x1f, space, \x85 and \xa0. *)
Definition is_space (c : ascii) : bool :=
  match nat_of_ascii c with
  | 9 | 10 | 11 | 12 | 13 | 28 | 29 | 30 | 31 | 32 | 133 | 160 => true
  | _ => false
  end.

Fixpoint drop_while (f : ascii -> bool) (s : text) : text :=
  match s with
  | [] => []
  | c :: s' => if f c then drop_while f s' else s
  end.

Definition py_lstrip (s : text) : text := drop_while is_space s.
Definition py_rstrip (s : text) : text := rev (drop_while is_space (rev s)).

(** [str.strip()] *)
Definition py_strip (s : text) : text := py_rstrip (py_lstrip s).

(** [s.startswith(p)] *)
Fixpoint prefixb (p s : text) : bool :=
  match p, s with
  | [], _ => true
  | x :: p', y :: s' => ascii_eqb x y && prefixb p' s'
  | _ :: _, [] => false
  end.

(** [k in s] for strings: substring test. *)
Fixpoint containsb (k s : text) : bool :=
  prefixb k s || match s with [] => false | _ :: s' => containsb k s' end.

(** [s.endswith(x)] for a one-character [x]. *)
Definition ends_with_char (c : ascii) (s : text) : bool :=
  match rev s with [] => false | d :: _ => ascii_eqb d c end.

(* ================================================================== *)
(** ** main.py: [is_safe_query] *)

Definition unsafe_keywords : list text :=
  map t ["insert"; "update"; "delete"; "drop"; "alter"; "truncate"; "create"]%string.

(** [sql_lower = sql.lower()]
    [return sql_lower.strip().startswith("select") and
            not any(k in sql_lower for k in unsafe_keywords)] *)
Definition is_safe_query (sql : text) : bool :=
  let sql_lower := py_lower sql in
  prefixb (t "select") (py_strip sql_lower)
  && negb (existsb (fun k => containsb k sql_lower) unsafe_keywords).

(* ================================================================== *)
(** ** Python values: JSON data, exceptions, and the operations the code
    applies to them *)

(** The values [json.loads] builds (numbers restricted to integers); a
    [dict] is its list of (key, value) pairs in insertion order. *)
Inductive json : Type :=
| JNull
| JBool (b : bool)
| JNum (z : Z)
| JStr (s : text)
| JArr (l : list json)
| JObj (kvs : list (text * json)).

(** A raised exception: its class name and [str(e)]. *)
Record exn : Type := Exn { exn_cls : text; exn_msg : text }.

Inductive outcome (A : Type) : Type :=
| Ret (a : A)
| Raise (e : exn).
Arguments Ret {A} a.
Arguments Raise {A} e.

Definition type_error (m : text) : exn := Exn (t "TypeError") m.
Definition attribute_error (m : text) : exn := Exn (t "AttributeError") m.

Definition dq : text := [ascii_of_nat 34].
Definition sq : text := [ascii_of_nat 39].
Definition nl : text := [ascii_of_nat 10].

Definition py_type_name (v : json) : text :=
  match v with
  | JNull => t "NoneType" | JBool _ => t "bool" | JNum _ => t "int"
  | JStr _ => t "str" | JArr _ => t "list" | JObj _ => t "dict"
  end.

Fixpoint dict_lookup (k : text) (kvs : list (text * json)) : option json :=
  match kvs with
  | [] => None
  | (k', v) :: r => if text_eqb k k' then Some v else dict_lookup k r
  end.

(** [d[k] = v]: replaces the value in place, or appends a new key. *)
Fixpoint dict_set (k : text) (v : json) (kvs : list (text * json))
  : list (text * json) :=
  match kvs with
  | [] => [(k, v)]
  | (k', v') :: r =>
      if text_eqb k k' then (k', v) :: r else (k', v') :: dict_set k v r
  end.

(** [k in v] for a string [k]. *)
Definition py_contains (k : text) (v : json) : outcome bool :=
  match v with
  | JObj kvs => Ret (if dict_lookup k kvs then true else false)
  | JArr l =>
      Ret (existsb (fun x => match x with JStr s => text_eqb s k | _ => false end) l)
  | JStr s => Ret (containsb k s)
  | _ => Raise (type_error (t "argument of type '" ++ py_type_name v ++
                            t "' is not iterable"))
  end.

(** [v.get(k, d)] *)
Definition py_get (v : json) (k : text) (d : json) : outcome json :=
  match v with
  | JObj kvs => Ret (match dict_lookup k kvs with Some x => x | None => d end)
  | _ => Raise (attribute_error (sq ++ py_type_name v ++
                                 t "' object has no attribute 'get'"))
  end.

(** [v.strip()] *)
Definition py_strip_value (v : json) : outcome text :=
  match v with
  | JStr s => Ret (py_strip s)
  | _ => Raise (attribute_error (sq ++ py_type_name v ++
                                 t "' object has no attribute 'strip'"))
  end.

(** [bool(v)] *)
Definition py_truthy (v : json) : bool :=
  match v with
  | JNull => false
  | JBool b => b
  | JNum z => negb (Z.eqb z 0)
  | JStr s => match s with [] => false | _ => true end
  | JArr l => match l with [] => false | _ => true end
  | JObj kvs => match kvs with [] => false | _ => true end
  end.

(** Decimal digits of a natural number. *)
Fixpoint digits_aux (fuel : nat) (n : N) (acc : text) : text :=
  match fuel with
  | O => acc
  | S f =>
      let acc' := ascii_of_N (48 + N.modulo n 10) :: acc in
      if N.eqb (N.div n 10) 0 then acc' else digits_aux f (N.div n 10) acc'
  end.

Definition decimal_N (n : N) : text := digits_aux (S (N.size_nat n)) n [].

(** [str(z)] for an integer. *)
Definition py_str_int (z : Z) : text :=
  match z with
  | Zneg p => t "-" ++ decimal_N (Npos p)
  | _ => decimal_N (Z.to_N z)
  end.

Definition hex_digit (n : N) : ascii :=
  if N.ltb n 10 then ascii_of_N (48 + n) else ascii_of_N (87 + n).

Definition hex2 (c : ascii) : text :=
  let n := N_of_ascii c in [hex_digit (N.div n 16); hex_digit (N.modulo n 16)].

(** [repr(s)] for a string: single quotes unless the text contains a
    single quote and no double quote; the characters that are not
    printable (U+0000..U+001F, U+007F..U+00A0 and U+00AD) are written
    as [\xNN]. *)
Definition py_repr_text (s : text) : text :=
  let q := if containsb sq s && negb (containsb dq s) then dq else sq in
  let esc (c : ascii) : text :=
    let n := nat_of_ascii c in
    if n =? 92 then t "\\"
    else if text_eqb [c] q then t "\" ++ q
    else if n =? 10 then t "\n"
    else if n =? 13 then t "\r"
    else if n =? 9 then t "\t"
    else if (n <? 32) || ((127 <=? n) && (n <=? 160)) || (n =? 173)
    then t "\x" ++ hex2 c
    else [c] in
  q ++ flat_map esc s ++ q.

Fixpoint join (sep : text) (l : list text) : text :=
  match l with
  | [] => []
  | [x] => x
  | x :: r => x ++ sep ++ join sep r
  end.

(** [repr(v)] *)
Fixpoint py_repr (v : json) : text :=
  match v with
  | JNull => t "None"
  | JBool b => if b then t "True" else t "False"
  | JNum z => py_str_int z
  | JStr s => py_repr_text s
  | JArr l => t "[" ++ join (t ", ") (map py_repr l) ++ t "]"
  | JObj kvs =>
      t "{" ++ join (t ", ")
        (map (fun kv => py_repr_text (fst kv) ++ t ": " ++ py_repr (snd kv)) kvs)
      ++ t "}"
  end.

(** [str(v)], as an f-string renders it. *)
Definition py_str (v : json) : text :=
  match v with JStr s => s | _ => py_repr v end.

(** [KeyError(k)]: its [str] is [repr(k)]. *)
Definition key_error (k : text) : exn := Exn (t "KeyError") (py_repr_text k).

(** [v[k]] for a string [k]. *)
Definition py_getitem (v : json) (k : text) : outcome json :=
  match v with
  | JObj kvs =>
      match dict_lookup k kvs with Some x => Ret x | None => Raise (key_error k) end
  | JArr _ => Raise (type_error (t "list indices must be integers or slices, not str"))
  | JStr _ => Raise (type_error (t "string indices must be integers, not 'str'"))
  | _ => Raise (type_error (sq ++ py_type_name v ++ t "' object is not subscriptable"))
  end.

(** [json.dumps(v)] with its default separators and [ensure_ascii]. *)
Definition dumps_text (s : text) : text :=
  let esc (c : ascii) : text :=
    let n := nat_of_ascii c in
    if n =? 34 then t "\" ++ dq
    else if n =? 92 then t "\\"
    else if n =? 10 then t "\n"
    else if n =? 13 then t "\r"
    else if n =? 9 then t "\t"
    else if n =? 8 then t "\b"
    else if n =? 12 then t "\f"
    else if (n <? 32) || (126 <? n) then t "\u00" ++ hex2 c
    else [c] in
  dq ++ flat_map esc s ++ dq.

Fixpoint json_dumps (v : json) : text :=
  match v with
  | JNull => t "null"
  | JBool b => if b then t "true" else t "false"
  | JNum z => py_str_int z
  | JStr s => dumps_text s
  | JArr l => t "[" ++ join (t ", ") (map json_dumps l) ++ t "]"
  | JObj kvs =>
      t "{" ++ join (t ", ")
        (map (fun kv => dumps_text (fst kv) ++ t ": " ++ json_dumps (snd kv)) kvs)
      ++ t "}"
  end.

(* ================================================================== *)
(** ** A state monad with Python exceptions *)

Definition PyM (S A : Type) : Type := S -> S * outcome A.

Definition ret {S A} (a : A) : PyM S A := fun s => (s, Ret a).
Definition raise {S A} (e : exn) : PyM S A := fun s => (s, Raise e).
Definition lift {S A} (o : outcome A) : PyM S A := fun s => (s, o).

Definition bind {S A B} (m : PyM S A) (k : A -> PyM S B) : PyM S B :=
  fun s => match m s with
           | (s', Ret a) => k a s'
           | (s', Raise e) => (s', Raise e)
           end.

Notation "'let*' x ':=' m 'in' k" := (bind m (fun x => k))
  (at level 200, x name, m at level 100, k at level 200).

(** [try: m  except Exception as e: h(e)] *)
Definition try_except {S A} (m : PyM S A) (h : exn -> PyM S A) : PyM S A :=
  fun s => match m s with
           | (s', Raise e) => h e s'
           | r => r
           end.

(** [try: m  finally: fin] : a raising [fin] replaces the outcome. *)
Definition try_finally {S A} (m : PyM S A) (fin : PyM S unit) : PyM S A :=
  fun s => let '(s1, o) := m s in
           match fin s1 with
           | (s2, Ret _) => (s2, o)
           | (s2, Raise e) => (s2, Raise e)
           end.

(** Pure fallible computations. *)
Definition obind {A B} (o : outcome A) (k : A -> outcome B) : outcome B :=
  match o with Ret a => k a | Raise e => Raise e end.

Fixpoint omap {A B} (f : A -> outcome B) (l : list A) : outcome (list B) :=
  match l with
  | [] => Ret []
  | x :: r => obind (f x) (fun y => obind (omap f r) (fun ys => Ret (y :: ys)))
  end.

(* ================================================================== *)
(** ** main.py: the server *)

(** A row of a [DictCursor]: column name to value. *)
Definition row := list (text * json).

(** The database I/O the server performs. *)
Inductive db_event : Type :=
| EvConnect
| EvCursor
| EvExecute (q : text)
| EvFetch
| EvCommit
| EvRollback
| EvCloseCursor
| EvCloseConn.

(** The statement [get_schema] runs for one table:
    [f"DESCRIBE `{table_name}`"]. *)
Definition describe_query (table_name : json) : text :=
  t "DESCRIBE `" ++ py_str table_name ++ t "`".

(** The MySQL server behind [MySQLdb], seen from one connection.  [Db] is
    the connection's view: the data with the changes of its open
    transaction, and what the server has still to deliver of the last
    statement batch ([MySQLdb.connect] enables multi-statements, so the
    text given to [cursor.execute] may hold several statements separated
    by [;]).  [Db] is any state, so failures may depend on history.
    - [drv_connect c]: the error of [MySQLdb.connect] when [c] is the
      committed data, if it fails;
    - [drv_execute d q]: [cursor.execute(q)]: it first reads the result
      sets still pending (raising the error of a failing statement among
      them), then runs the batch [q]; it gives the new view and the rows of
      the first result set, or the error of the first statement;
    - [drv_durable d]: when the batch that left the view [d] committed (an
      explicit [COMMIT], or a statement with an implicit commit), the data
      it committed;
    - [drv_commit d], [drv_rollback d]: the error of [conn.commit()] or
      [conn.rollback()], if any (for instance "Commands out of sync" while
      result sets are pending);
    - [drv_close_cursor d]: the error of [cursor.close()], which reads the
      pending result sets, if any.
    Two facts of MySQL: [SHOW TABLES] commits nothing, and neither does
    [DESCRIBE] of a name in backticks that holds no backtick, which is a
    single statement. *)
Class Driver (Db : Type) := {
  drv_connect : Db -> option exn;
  drv_execute : Db -> text -> (Db * list row) + exn;
  drv_durable : Db -> option Db;
  drv_commit : Db -> option exn;
  drv_rollback : Db -> option exn;
  drv_close_cursor : Db -> option exn;
  drv_show_tables_durable : forall d d' rs,
    drv_execute d (t "SHOW TABLES") = inl (d', rs) -> drv_durable d' = None;
  drv_describe_durable : forall d d' rs n,
    ~ In "`"%char (py_str n) ->
    drv_execute d (describe_query n) = inl (d', rs) -> drv_durable d' = None
}.

(** The data as committed, the connection's transaction view of it, the
    rows the cursor holds (MySQLdb's [DictCursor] stores the whole result
    set on [execute]) and the log of database I/O. *)
Record world (Db : Type) : Type := MkWorld {
  w_committed : Db;
  w_working : Db;
  w_pending : list row;
  w_log : list db_event
}.
Arguments MkWorld {Db}.
Arguments w_committed {Db}.
Arguments w_working {Db}.
Arguments w_pending {Db}.
Arguments w_log {Db}.

(** The fixed reply of [query_data] to a query the validator rejects. *)
Definition unsafe_msg : text :=
  t "Potentially unsafe query detected. Only SELECT queries are allowed.".

(** The dict [query_data] returns: [success], and the keys [results],
    [rowCount], [error] when present. *)
Record query_result : Type := MkResult {
  qr_success : bool;
  qr_results : option (list row);
  qr_rowCount : option nat;
  qr_error : option text
}.

Section Server.
Context {Db : Type} `{Driver Db}.

(** [DB_CONFIG["db"]] *)
Variable db_name : text.

Abbreviation M := (PyM (world Db)).

Definition emit (ev : db_event) (w : world Db) : world Db :=
  MkWorld (w_committed w) (w_working w) (w_pending w) (w_log w ++ [ev]).

(** [get_connection()]: [MySQLdb.connect] on [DB_CONFIG]; an error is
    printed and re-raised.  A new connection sees the committed data. *)
Definition get_connection : M unit := fun w =>
  let w := emit EvConnect w in
  match drv_connect (w_committed w) with
  | Some e => (w, Raise e)
  | None => (MkWorld (w_committed w) (w_committed w) [] (w_log w), Ret tt)
  end.

(** [conn.cursor(MySQLdb.cursors.DictCursor)] *)
Definition conn_cursor : M unit := fun w => (emit EvCursor w, Ret tt).

(** The committed data after a batch left the view [d]. *)
Definition committed_after (c d : Db) : Db :=
  match drv_durable d with Some c' => c' | None => c end.

(** [cursor.execute(q)] *)
Definition cursor_execute (q : text) : M unit := fun w =>
  let w := emit (EvExecute q) w in
  match drv_execute (w_working w) q with
  | inl (d, rows) => (MkWorld (committed_after (w_committed w) d) d rows (w_log w), Ret tt)
  | inr e => (w, Raise e)
  end.

(** [cursor.fetchall()] *)
Definition fetchall : M (list row) := fun w =>
  let w := emit EvFetch w in
  (MkWorld (w_committed w) (w_working w) [] (w_log w), Ret (w_pending w)).

(** [conn.commit()] *)
Definition commit : M unit := fun w =>
  let w := emit EvCommit w in
  match drv_commit (w_working w) with
  | None => (MkWorld (w_working w) (w_working w) (w_pending w) (w_log w), Ret tt)
  | Some e => (w, Raise e)
  end.

(** [conn.rollback()] *)
Definition rollback : M unit := fun w =>
  let w := emit EvRollback w in
  match drv_rollback (w_working w) with
  | None => (MkWorld (w_committed w) (w_committed w) (w_pending w) (w_log w), Ret tt)
  | Some e => (w, Raise e)
  end.

(** [cursor.close()] *)
Definition close_cursor : M unit := fun w =>
  let w := emit EvCloseCursor w in
  match drv_close_cursor (w_working w) with
  | None => (w, Ret tt)
  | Some e => (w, Raise e)
  end.

(** [conn.close()]: uncommitted work is discarded. *)
Definition close_conn : M unit := fun w =>
  let w := emit EvCloseConn w in
  (MkWorld (w_committed w) (w_committed w) [] (w_log w), Ret tt).

(** The [finally] block of [get_schema], [get_tables] and [query_data]:
    [if cursor: cursor.close()] then [conn.close()]; [conn.cursor] is the
    first statement of the [try] and does not fail, so [cursor] is set.  A
    raising [cursor.close()] skips [conn.close()]. *)
Definition close_all : M unit := let* _ := close_cursor in close_conn.

(** [@mcp.tool() query_data(sql)]; logging and printing are omitted. *)
Definition query_data (sql : text) : M query_result :=
  if negb (is_safe_query sql) then
    ret (MkResult false None None (Some unsafe_msg))
  else
    let* _ := get_connection in
    try_finally
      (let* _ := conn_cursor in
       let* _ := cursor_execute (t "SET TRANSACTION READ ONLY") in
       let* _ := cursor_execute (t "START TRANSACTION") in
       try_except
         (let* _ := cursor_execute sql in
          let* results := fetchall in
          let* _ := commit in
          ret (MkResult true (Some results) (Some (length results)) None))
         (fun e =>
            let* _ := rollback in
            ret (MkResult false None None (Some (exn_msg e)))))
      close_all.

(** [list(table.values())[0]] *)
Definition first_value (r : row) : outcome json :=
  match r with
  | (_, v) :: _ => Ret v
  | [] => Raise (Exn (t "IndexError") (t "list index out of range"))
  end.

(** The dict built for one row of [DESCRIBE]. *)
Definition column_entry (c : row) : outcome json :=
  let col := JObj c in
  obind (py_getitem col (t "Field")) (fun f =>
  obind (py_getitem col (t "Type")) (fun ty =>
  obind (py_getitem col (t "Null")) (fun nu =>
  obind (py_getitem col (t "Key")) (fun k =>
  obind (py_getitem col (t "Default")) (fun d =>
  obind (py_getitem col (t "Extra")) (fun x =>
  Ret (JObj [(t "name", f); (t "type", ty); (t "null", nu); (t "key", k);
             (t "default", d); (t "extra", x)]))))))).

(** The loop [for table_name in table_names: ...] over [schema]. *)
Fixpoint describe_tables (names : list json) (schema : list (text * json))
  : M (list (text * json)) :=
  match names with
  | [] => ret schema
  | n :: rest =>
      let* _ := cursor_execute (describe_query n) in
      let* columns := fetchall in
      let* table_schema := lift (omap column_entry columns) in
      describe_tables rest (dict_set (py_str n) (JArr table_schema) schema)
  end.

(** [@mcp.resource("mysql://schema") get_schema()] *)
Definition server_get_schema : M json :=
  let* _ := get_connection in
  try_finally
    (let* _ := conn_cursor in
     let* _ := cursor_execute (t "SHOW TABLES") in
     let* tables := fetchall in
     let* table_names := lift (omap first_value tables) in
     let* schema := describe_tables table_names [] in
     ret (JObj [(t "database", JStr db_name); (t "tables", JObj schema)]))
    close_all.

(** [@mcp.resource("mysql://tables") get_tables()] *)
Definition get_tables : M json :=
  let* _ := get_connection in
  try_finally
    (let* _ := conn_cursor in
     let* _ := cursor_execute (t "SHOW TABLES") in
     let* tables := fetchall in
     let* table_names := lift (omap first_value tables) in
     ret (JObj [(t "database", JStr db_name); (t "tables", JArr table_names)]))
    close_all.

(** The database I/O of one full introspection over [names]. *)
Definition introspection_trace (names : list json) : list db_event :=
  [EvConnect; EvCursor; EvExecute (t "SHOW TABLES"); EvFetch]
  ++ flat_map (fun n => [EvExecute (describe_query n); EvFetch]) names
  ++ [EvCloseCursor; EvCloseConn].

End Server.

(** A server operation only appends to the database I/O log, whatever its
    outcome. *)
Definition log_grows {Db A} (m : PyM (world Db) A) : Prop :=
  forall w, exists l, w_log (fst (m w)) = w_log w ++ l.

(* ================================================================== *)
(** ** test.py: the [NLtoSQLConverter] client *)

(** The I/O the converter performs. *)
Inductive client_event : Type :=
| EvReadResource (uri : text)
| EvChat (model prompt : text).

(** The converter's collaborators.  [read_resource] is the MCP session's
    [read_resource(uri)], giving the [resource_contents] the code unpacks
    from its reply: a tag and the texts of the contents; [chat_create] is
    the completion call, giving [response.choices[0].message.content];
    [json_loads] is [json.loads], [None] standing for [json.JSONDecodeError].
    Both remote calls see the history of earlier calls. *)
Class Collaborators := {
  read_resource : list client_event -> text -> outcome (text * list text);
  chat_create : list client_event -> text -> text -> outcome (option text);
  json_loads : text -> option json
}.

(** The converter's [schema_cache] and the log of its I/O. *)
Record cworld : Type := MkCWorld {
  schema_cache : gmap text json;
  io_log : list client_event
}.

Section Client.
Context `{Collaborators}.

Definition is_backtick (c : ascii) : bool := ascii_eqb c "`"%char.

Definition is_s (c : ascii) : bool := ascii_eqb c "s"%char || ascii_eqb c "S"%char.
Definition is_q (c : ascii) : bool := ascii_eqb c "q"%char || ascii_eqb c "Q"%char.
Definition is_l (c : ascii) : bool := ascii_eqb c "l"%char || ascii_eqb c "L"%char.

(** A code fence. *)
Definition fence : text := t "```".

(** [re.sub(r'```sql|```', '', sql, flags=re.IGNORECASE)]: scanning left
    to right, a match at a position is taken with [```sql] tried before
    [```], and the scan resumes after it. *)
Fixpoint remove_fences (s : text) : text :=
  match s with
  | [] => []
  | a :: s1 =>
      match s1 with
      | b :: c :: rest =>
          if is_backtick a && is_backtick b && is_backtick c then
            match rest with
            | x :: y :: z :: rest' =>
                if is_s x && is_q y && is_l z then remove_fences rest'
                else remove_fences rest
            | _ => remove_fences rest
            end
          else a :: remove_fences s1
      | _ => a :: remove_fences s1
      end
  end.

Definition is_quote (c : ascii) : bool :=
  ascii_eqb c (ascii_of_nat 34) || ascii_eqb c (ascii_of_nat 39).

(** [re.sub(r'^["\']+|["\']+$', '', s)] on a stripped [s] (which has no
    final newline, so [$] matches only at the end): the leading run of
    quotes and the trailing run of quotes are removed. *)
Definition strip_quotes (s : text) : text :=
  rev (drop_while is_quote (rev (drop_while is_quote s))).

(** [_clean_sql(sql)] *)
Definition clean_sql (sql : text) : text :=
  let sql := remove_fences sql in
  let sql := strip_quotes (py_strip sql) in
  let sql := if negb (ends_with_char ";"%char sql) then sql ++ t ";" else sql in
  py_strip sql.

(** [_clean_sql] applied to a JSON value: [re.sub] raises on a non-string. *)
Definition clean_sql_value (v : json) : outcome text :=
  match v with
  | JStr s => Ret (clean_sql s)
  | _ => Raise (type_error (t "expected string or bytes-like object, got '" ++
                            py_type_name v ++ sq))
  end.

(** [v[k] = x] *)
Definition py_setitem (v : json) (k : text) (x : json) : outcome json :=
  match v with
  | JObj kvs => Ret (JObj (dict_set k x kvs))
  | _ => Raise (type_error (sq ++ py_type_name v ++
                            t "' object does not support item assignment"))
  end.

Definition empty_sql_msg : text := t "Generated SQL is empty".

(** The reply for a response that is not JSON. *)
Definition invalid_json_result (response : text) : json :=
  JObj [(t "error", JStr (t "Invalid JSON response"));
        (t "raw_response", JStr response);
        (t "sql", JStr []);
        (t "confidence", JNum 0)].

(** [_parse_response(response)]: only [json.JSONDecodeError] is caught
    here; every other exception propagates to [generate_sql]. *)
Definition parse_response (content : option text) : outcome json :=
  match content with
  | None => Raise (type_error
      (t "the JSON object must be str, bytes or bytearray, not NoneType"))
  | Some response =>
      match json_loads response with
      | None => Ret (invalid_json_result response)
      | Some result =>
          obind (py_contains (t "sql") result) (fun has_sql =>
          obind (if has_sql then
                   obind (py_getitem result (t "sql")) (fun v =>
                   obind (clean_sql_value v) (fun c =>
                   py_setitem result (t "sql") (JStr c)))
                 else Ret result) (fun result =>
          obind (py_get result (t "sql") (JStr [])) (fun v =>
          obind (py_strip_value v) (fun st =>
          if text_eqb st [] || text_eqb st (t ";") then
            obind (py_get result (t "error") (JStr empty_sql_msg)) (fun e =>
            py_setitem result (t "error") e)
          else Ret result))))
      end
  end.

(** [extract_resource_content(resource_contents)] *)
Definition extract_resource_content (rc : text * list text) : json :=
  match rc with
  | (tag, text_content :: _) =>
      if text_eqb tag (t "contents") then
        match json_loads text_content with
        | Some v => v
        | None => JObj [(t "error", JStr (t "Invalid JSON content"));
                        (t "raw", JStr text_content)]
        end
      else JObj [(t "error", JStr (t "No content found"))]
  | (_, []) => JObj [(t "error", JStr (t "No content found"))]
  end.

(** [for x in v]: the items a loop visits. *)
Definition py_iter (v : json) : outcome (list json) :=
  match v with
  | JArr l => Ret l
  | JObj kvs => Ret (map (fun kv => JStr (fst kv)) kvs)
  | JStr s => Ret (map (fun c => JStr [c]) s)
  | _ => Raise (type_error (sq ++ py_type_name v ++ t "' object is not iterable"))
  end.

(** [v == s] for a string [s]. *)
Definition json_is_text (v : json) (s : text) : bool :=
  match v with JStr x => text_eqb x s | _ => false end.

(** [sep.join(l)]: every item must be a string. *)
Fixpoint py_join (sep : text) (l : list json) (i : nat) : outcome text :=
  match l with
  | [] => Ret []
  | JStr x :: [] => Ret x
  | JStr x :: r => obind (py_join sep r (S i)) (fun y => Ret (x ++ sep ++ y))
  | v :: _ => Raise (type_error (t "sequence item " ++ decimal_N (N.of_nat i) ++
                                 t ": expected str instance, " ++ py_type_name v ++
                                 t " found"))
  end.

(** One line of [_format_schema] for the column [col]. *)
Definition format_column (col : json) : outcome text :=
  obind (py_getitem col (t "name")) (fun name =>
  obind (py_getitem col (t "type")) (fun ty =>
  let col_info := t "  " ++ py_str name ++ t ": " ++ py_str ty in
  obind (py_get col (t "key") JNull) (fun key =>
  obind (py_get col (t "null") JNull) (fun nul =>
  obind (py_get col (t "default") JNull) (fun def =>
  obind (match def with
         | JNull => Ret []
         | _ => obind (py_getitem col (t "default")) (fun d =>
                Ret [JStr (t "DEFAULT " ++ py_str d)])
         end) (fun c_default =>
  obind (py_get col (t "extra") JNull) (fun extra =>
  obind (if py_truthy extra then
           obind (py_getitem col (t "extra")) (fun x => Ret [x])
         else Ret []) (fun c_extra =>
  let constraints :=
    (if json_is_text key (t "PRI") then [JStr (t "PRIMARY KEY")] else [])
    ++ (if json_is_text nul (t "NO") then [JStr (t "NOT NULL")] else [])
    ++ c_default ++ c_extra in
  obind (match constraints with
         | [] => Ret col_info
         | _ => obind (py_join (t ", ") constraints 0) (fun j =>
                Ret (col_info ++ t " [" ++ j ++ t "]"))
         end) (fun col_info =>
  Ret (col_info ++ nl)))))))))).

(** The block of [_format_schema] for one table. *)
Definition format_table (table_name : text) (columns : json) : outcome text :=
  obind (py_iter columns) (fun cols =>
  obind (omap format_column cols) (fun lines =>
  Ret (t "Table: " ++ table_name ++ nl ++ concat lines ++ nl))).

(** [_format_schema(schema_data)] *)
Definition format_schema (schema_data : json) : outcome text :=
  let invalid := Ret (t "Invalid schema format: " ++ json_dumps schema_data) in
  match schema_data with
  | JObj kvs =>
      match dict_lookup (t "tables") kvs with
      | None => invalid
      | Some tables =>
          let db_name := match dict_lookup (t "database") kvs with
                         | Some v => v | None => JStr (t "unknown_database") end in
          match tables with
          | JObj tkvs =>
              obind (omap (fun kv => format_table (fst kv) (snd kv)) tkvs) (fun blocks =>
              Ret (py_strip (t "Database: " ++ py_str db_name ++ nl ++ nl ++
                             concat blocks)))
          | _ => Raise (attribute_error (sq ++ py_type_name tables ++
                                         t "' object has no attribute 'items'"))
          end
      end
  | _ => invalid
  end.

(** [_build_prompt(nl_query, schema)]: the f-string, line by line. *)
Definition build_prompt (nl_query schema : text) : text :=
  join nl
    [ [];
      t "        ## 任务";
      t "        将自然语言问题转换为精确的SQL查询语句。数据库是MySQL。";
      t "        ";
      t "        ## 数据库Schema";
      t "        " ++ schema;
      t "        ";
      t "        ## 用户问题";
      t "        " ++ dq ++ nl_query ++ dq;
      t "        ";
      t "        ## 输出要求";
      t "        1. 只生成SQL语句，不要包含任何解释或额外文本";
      t "        2. 确保SQL语法完全正确";
      t "        3. 使用JSON格式返回结果：";
      t "        {";
      t "            " ++ dq ++ t "sql" ++ dq ++ t ": " ++ dq ++ t "生成的SQL语句" ++ dq ++ t ",";
      t "            " ++ dq ++ t "confidence" ++ dq ++ t ": " ++ dq ++ t "对生成结果的置信度评分(0-100)" ++ dq ++ t ",";
      t "            " ++ dq ++ t "tables_used" ++ dq ++ t ": [" ++ dq ++ t "查询涉及的表名" ++ dq ++ t "]";
      t "        }";
      t "        ";
      t "        ## 关键注意事项";
      t "        - 使用反引号(`)引用表名和列名，而非双引号";
      t "        - 确保所有引号都是闭合的";
      t "        - 如果问题无法转换为SQL，设置" ++ dq ++ t "sql" ++ dq ++ t "为空字符串并添加" ++ dq ++ t "error" ++ dq ++ t "字段说明原因";
      t "        - 特别注意WHERE子句的准确性";
      t "        - 日期函数使用CURDATE()获取当前日期";
      t "        - 仅支持单表查询（不允许使用JOIN）";
      t "        ";
      t "        ## 示例";
      t "        用户问题: " ++ dq ++ t "显示最近的10个订单" ++ dq;
      t "        正确SQL: SELECT * FROM `orders` ORDER BY `order_date` DESC LIMIT 10;";
      t "        " ].

(** The error reply of [generate_sql]. *)
Definition failed_result (msg : text) : json :=
  JObj [(t "error", JStr msg); (t "sql", JStr []); (t "confidence", JNum 0)].

Abbreviation CM := (PyM cworld).

(** [await session.read_resource(uri)] *)
Definition session_read_resource (uri : text) : CM (text * list text) := fun w =>
  (MkCWorld (schema_cache w) (io_log w ++ [EvReadResource uri]),
   read_resource (io_log w) uri).

(** [self.client.chat.completions.create(model=..., messages=[prompt],
    temperature=0.3, max_tokens=256, response_format=json_object)] *)
Definition chat (model prompt : text) : CM (option text) := fun w =>
  (MkCWorld (schema_cache w) (io_log w ++ [EvChat model prompt]),
   chat_create (io_log w) model prompt).

Definition cache_store (k : text) (v : json) : CM unit := fun w =>
  (MkCWorld (<[k := v]> (schema_cache w)) (io_log w), Ret tt).

(** [self.schema_cache[k]] *)
Definition cache_get (k : text) : CM json := fun w =>
  (w, match schema_cache w !! k with
      | Some v => Ret v
      | None => Raise (key_error k)
      end).

Definition cache_has (k : text) : CM bool := fun w =>
  (w, Ret (if schema_cache w !! k then true else false)).

(** [NLtoSQLConverter.get_schema(session, db_identifier)] *)
Definition get_schema (db_identifier : text) : CM json :=
  let* cached := cache_has db_identifier in
  let* _ := (if cached then ret tt
             else let* resource_contents := session_read_resource db_identifier in
                  let schema_data := extract_resource_content resource_contents in
                  cache_store db_identifier schema_data) in
  cache_get db_identifier.

(** [NLtoSQLConverter.generate_sql(session, nl_query, db_identifier)] for
    a converter built with model name [model]. *)
Definition generate_sql (model nl_query db_identifier : text) : CM json :=
  try_except
    (let* schema_data := get_schema db_identifier in
     let* has_error := lift (py_contains (t "error") schema_data) in
     if has_error then
       let* err := lift (py_get schema_data (t "error") JNull) in
       ret (failed_result (t "Schema error: " ++ py_str err))
     else
       let* schema_str := lift (format_schema schema_data) in
       let prompt := build_prompt nl_query schema_str in
       let* content := chat model prompt in
       lift (parse_response content))
    (fun e => ret (failed_result (t "Generation failed: " ++ exn_msg e))).

End Client.

(* ================================================================== *)
(** ** Concrete collaborators, used to run the embedding on examples *)

Module Toy.

(** A small MySQL server: [DESCRIBE] rows and contents of each table, the
    error an unknown statement raises, failures of connection, commit and
    rollback; what is still pending of the last batch ([Some None]: result
    sets that read without error, [Some (Some e)]: a statement that failed
    with [e]), and whether that batch committed. *)
Record db : Type := MkDb {
  db_tables : list (text * list row);
  db_data : list (text * list row);
  db_stmt_error : exn;
  db_connect_error : option exn;
  db_commit_error : option exn;
  db_rollback_error : option exn;
  db_pending : option (option exn);
  db_batch_committed : bool
}.

Definition col (f ty nu k : text) (d : json) (x : text) : row :=
  [(t "Field", JStr f); (t "Type", JStr ty); (t "Null", JStr nu);
   (t "Key", JStr k); (t "Default", d); (t "Extra", JStr x)].

Definition users_columns : list row :=
  [col (t "id") (t "int") (t "NO") (t "PRI") JNull (t "auto_increment");
   col (t "name") (t "varchar(50)") (t "YES") [] JNull []].

Definition users_rows : list row :=
  [[(t "id", JNum 1); (t "name", JStr (t "alice"))];
   [(t "id", JNum 2); (t "name", JStr (t "bob"))]].

Fixpoint assoc_text {A} (k : text) (l : list (text * A)) : option A :=
  match l with
  | [] => None
  | (k', v) :: r => if text_eqb k k' then Some v else assoc_text k r
  end.

(** The view once nothing is pending and no commit is to be reported. *)
Definition settle (d : db) : db :=
  MkDb (db_tables d) (db_data d) (db_stmt_error d) (db_connect_error d)
       (db_commit_error d) (db_rollback_error d) None false.

Definition no_such_table : exn :=
  Exn (t "ProgrammingError")
      (t "(1146, " ++ dq ++ t "Table 'college.nope' doesn't exist" ++ dq ++ t ")").

Definition out_of_sync : exn :=
  Exn (t "ProgrammingError")
      (t "(2014, " ++ dq ++ t "Commands out of sync; you can't run this command now" ++
       dq ++ t ")").

(** Two batches that pass the validator: one whose second statement
    fails, and one that commits, writes a row with [REPLACE] (not on the
    denylist) in the new transaction, and commits again. *)
Definition batch_nope : text := t "SELECT 1; SELECT * FROM nope".
Definition batch_commit : text :=
  t "SELECT 1; COMMIT; REPLACE INTO users VALUES (3, 'eve'); COMMIT".

Definition one_row : list row := [[(t "1", JNum 1)]].
Definition eve_row : row := [(t "id", JNum 3); (t "name", JStr (t "eve"))].

Definition add_eve (data : list (text * list row)) : list (text * list row) :=
  map (fun kv => if text_eqb (fst kv) (t "users") then (fst kv, snd kv ++ [eve_row])
                 else kv) data.

(** One batch run on a settled view. *)
Definition exec (d : db) (q : text) : (db * list row) + exn :=
  if text_eqb q batch_nope then
    inl (MkDb (db_tables d) (db_data d) (db_stmt_error d) (db_connect_error d)
              (db_commit_error d) (db_rollback_error d) (Some (Some no_such_table)) false,
         one_row)
  else if text_eqb q batch_commit then
    inl (MkDb (db_tables d) (add_eve (db_data d)) (db_stmt_error d) (db_connect_error d)
              (db_commit_error d) (db_rollback_error d) (Some None) true,
         one_row)
  else if text_eqb q (t "SET TRANSACTION READ ONLY") || text_eqb q (t "START TRANSACTION")
  then inl (settle d, [])
  else if text_eqb q (t "SHOW TABLES") then
    inl (settle d, map (fun kv => [(t "Tables_in_college", JStr (fst kv))]) (db_tables d))
  else
    match find (fun kv => text_eqb q (describe_query (JStr (fst kv)))) (db_tables d) with
    | Some (_, cols) => inl (settle d, cols)
    | None =>
        match find (fun kv => text_eqb q (t "SELECT * FROM " ++ fst kv)) (db_data d) with
        | Some (_, rows) => inl (settle d, rows)
        | None => inr (db_stmt_error d)
        end
    end.

(** [cursor.execute] reads what is pending first. *)
Definition toy_execute (d : db) (q : text) : (db * list row) + exn :=
  match db_pending d with
  | Some (Some e) => inr e
  | _ => exec (settle d) q
  end.

Definition toy_durable (d : db) : option db :=
  if db_batch_committed d then Some (settle d) else None.

(** With result sets pending, every other command is out of sync. *)
Definition toy_commit (d : db) : option exn :=
  match db_pending d with Some _ => Some out_of_sync | None => db_commit_error d end.
Definition toy_rollback (d : db) : option exn :=
  match db_pending d with Some _ => Some out_of_sync | None => db_rollback_error d end.
Definition toy_close_cursor (d : db) : option exn :=
  match db_pending d with Some (Some e) => Some e | _ => None end.

#[export] Instance driver : Driver db := {
  drv_connect := db_connect_error;
  drv_execute := toy_execute;
  drv_durable := toy_durable;
  drv_commit := toy_commit;
  drv_rollback := toy_rollback;
  drv_close_cursor := toy_close_cursor;
  drv_show_tables_durable := ltac:(
    intros d d' rs; unfold toy_execute, exec, toy_durable;
    destruct (db_pending d) as [[e|]|]; cbn; intros H;
    first [discriminate | injection H as <- _; reflexivity]);
  drv_describe_durable := ltac:(
    intros d d' rs n _; unfold toy_execute, exec, toy_durable;
    destruct (db_pending d) as [[e|]|]; cbn; intros H; [discriminate|..];
    repeat (case_match; simplify_eq); reflexivity)
}.

Definition college : db :=
  MkDb [(t "users", users_columns)] [(t "users", users_rows)] no_such_table
       None None None None false.

Definition start (d : db) : world db := MkWorld d d [] [].

(** A server whose failing statements raise an exception with an empty
    message. *)
Definition silent : db :=
  MkDb [] [] (Exn (t "InterfaceError") []) None None None None false.

(** A server that drops the connection during a query: the statement fails
    and so does the rollback that follows. *)
Definition lost_query : exn :=
  Exn (t "OperationalError") (t "(2013, 'Lost connection to MySQL server during query')").
Definition lost_rollback : exn :=
  Exn (t "OperationalError") (t "(2006, 'MySQL server has gone away')").
Definition lost : db :=
  MkDb [(t "users", users_columns)] [] lost_query None None (Some lost_rollback)
       None false.

(** A server that refuses connections. *)
Definition refused : exn :=
  Exn (t "OperationalError")
      (t "(2003, " ++ dq ++ t "Can't connect to MySQL server on 'localhost'" ++ dq ++ t ")").
Definition down : db :=
  MkDb [(t "users", users_columns)] [(t "users", users_rows)] no_such_table
       (Some refused) None None None false.

Definition users_result : query_result :=
  MkResult true (Some users_rows) (Some 2) None.

(** The schema document the server returns for [college], as JSON text and
    as the value [json.loads] builds from it. *)
Definition schema_doc : json :=
  snd (match server_get_schema (t "college") (start college) with
       | (_, Ret v) => (tt, v)
       | (_, Raise _) => (tt, JNull)
       end).

Definition schema_text : text := t "<schema document>".

Definition reply_ok : text := t "<reply ok>".
Definition reply_empty : text := t "<reply empty>".
Definition reply_garbage : text := t "not json".

Definition reply_ok_value : json :=
  JObj [(t "sql", JStr (t "```sql SELECT * FROM `users````"));
        (t "confidence", JNum 90); (t "tables_used", JArr [JStr (t "users")])].

Definition reply_empty_value : json :=
  JObj [(t "sql", JStr []); (t "confidence", JNum 0)].

Definition loads (s : text) : option json :=
  if text_eqb s schema_text then Some schema_doc
  else if text_eqb s reply_ok then Some reply_ok_value
  else if text_eqb s reply_empty then Some reply_empty_value
  else None.

Definition mcp_error : exn := Exn (t "McpError") (t "Connection refused").
Definition api_error : exn := Exn (t "APIConnectionError") (t "Connection error.").

(** [mysql://schema] answers with the schema document, [mysql://down]
    fails, [mysql://empty] answers with no contents.  The model fails on a
    question containing "FAIL", answers non-JSON to one containing
    "GARBAGE", an empty SQL to one containing "EMPTY", and otherwise a
    fenced query. *)
#[export] Instance collaborators : Collaborators := {
  read_resource := fun _ uri =>
    if text_eqb uri (t "mysql://schema") then Ret (t "contents", [schema_text])
    else if text_eqb uri (t "mysql://empty") then Ret (t "contents", [])
    else Raise mcp_error;
  chat_create := fun _ _ prompt =>
    if containsb (t "FAIL") prompt then Raise api_error
    else if containsb (t "GARBAGE") prompt then Ret (Some reply_garbage)
    else if containsb (t "EMPTY") prompt then Ret (Some reply_empty)
    else Ret (Some reply_ok);
  json_loads := loads
}.

Definition fresh : cworld := MkCWorld ∅ [].

End Toy.

(* ================================================================== *)
(** ** Lemmas on text *)

Lemma ascii_eqb_eq (a b : ascii) : ascii_eqb a b = true <-> a = b.
Proof. apply Ascii.eqb_eq. Qed.

Lemma prefixb_spec (p s : text) :
  prefixb p s = true <-> exists r, s = p ++ r.
Proof.
  revert s; induction p as [|x p IH]; intros s; simpl.
  - split; [eauto | done].
  - destruct s as [|y s].
    + split; [discriminate | intros [r Hr]; discriminate].
    + rewrite andb_true_iff, ascii_eqb_eq, IH. split.
      * intros [-> [r ->]]. eauto.
      * intros [r Hr]. injection Hr as -> ->. eauto.
Qed.

Lemma containsb_spec (k s : text) :
  containsb k s = true <-> exists a b, s = a ++ k ++ b.
Proof.
  induction s as [|c s IH]; simpl.
  - rewrite orb_false_r, prefixb_spec. split.
    + intros [r Hr]. exists [], r. simpl. done.
    + intros [a [b Hab]]. destruct a; [|discriminate]. simpl in Hab. eauto.
  - rewrite orb_true_iff, prefixb_spec, IH. split.
    + intros [[r Hr] | [a [b Hab]]].
      * exists [], r. done.
      * exists (c :: a), b. rewrite Hab. done.
    + intros [a [b Hab]]. destruct a as [|d a].
      * left. exists b. done.
      * right. injection Hab as -> ->. eauto.
Qed.

Lemma is_space_lower_char (c : ascii) : is_space (lower_char c) = is_space c.
Proof. destruct c as [[] [] [] [] [] [] [] []]; reflexivity. Qed.

Lemma lower_char_space (c : ascii) : is_space c = true -> lower_char c = c.
Proof. destruct c as [[] [] [] [] [] [] [] []]; try reflexivity; discriminate. Qed.

Lemma drop_while_lower (s : text) :
  drop_while is_space (py_lower s) = py_lower (drop_while is_space s).
Proof.
  induction s as [|c s IH]; simpl; [done|].
  rewrite is_space_lower_char. destruct (is_space c); done.
Qed.

Lemma strip_lower (s : text) : py_strip (py_lower s) = py_lower (py_strip s).
Proof.
  unfold py_strip, py_rstrip, py_lstrip, py_lower.
  rewrite drop_while_lower. unfold py_lower.
  rewrite <- map_rev, drop_while_lower. unfold py_lower.
  rewrite map_rev. done.
Qed.


Lemma existsb_containsb_false (ks : list text) (s : text) :
  existsb (fun k => containsb k s) ks = false <->
  Forall (fun k => ~ exists a b, s = a ++ k ++ b) ks.
Proof.
  rewrite List.Forall_forall. split.
  - intros Hex k Hk Hc. apply containsb_spec in Hc.
    assert (Ht : existsb (fun k => containsb k s) ks = true)
      by (apply existsb_exists; eauto).
    congruence.
  - intros Hall. destruct (existsb _ ks) eqn:E; [|done].
    apply existsb_exists in E as [k [Hk Hc]].
    apply containsb_spec in Hc. exfalso. exact (Hall k Hk Hc).
Qed.

(* ================================================================== *)
(** ** The safety validator *)

(** C1: [is_safe_query] accepts a string exactly when, trimmed and
    lowercased, it begins with [select], and its lowercased text contains
    none of the seven denylisted keywords as a substring.  So every string
    not beginning with [select], and every string containing a keyword
    (even one beginning with [select]), is rejected. *)
Theorem is_safe_query_iff (sql : text) :
  is_safe_query sql = true <->
  (exists rest, py_lower (py_strip sql) = t "select" ++ rest) /\
  Forall (fun k => ~ exists a b, py_lower sql = a ++ k ++ b) unsafe_keywords.
Proof.
  unfold is_safe_query.
  rewrite andb_true_iff, prefixb_spec, strip_lower, negb_true_iff,
    existsb_containsb_false.
  done.
Qed.

Example is_safe_query_examples :
  is_safe_query (t "SELECT * FROM users") = true /\
  is_safe_query (t "select * from users; DROP TABLE users") = false /\
  is_safe_query (t "  Select created_at FROM t") = false /\
  is_safe_query (t "DELETE FROM users") = false.
Proof. vm_compute. done. Qed.

(* ================================================================== *)
(** ** The query executor *)

Ltac run_server :=
  unfold query_data, try_finally, close_all, close_cursor, close_conn, bind,
    try_except, ret, lift, get_connection, conn_cursor, cursor_execute, fetchall,
    commit, rollback, emit in *; simpl in *.

(** C2: a query the validator rejects is answered with [success=false]
    and the fixed explanatory error, and the world is left as it was: no
    connection attempt, no statement, no database I/O at all. *)
Theorem query_data_rejects_unsafe {Db} `{Driver Db} (sql : text) (w : world Db) :
  is_safe_query sql = false ->
  query_data sql w = (w, Ret (MkResult false None None (Some unsafe_msg))).
Proof. intros Hs. unfold query_data. rewrite Hs. reflexivity. Qed.

(** C3 (as amended): a result [query_data] returns is either a success,
    whose [results] are the rows that executing the statement produced in
    this run (after the connection, [SET TRANSACTION READ ONLY] and
    [START TRANSACTION] succeeded) with their number as [rowCount] and no
    [error]; or a failure without [results] and [rowCount], whose [error] is
    the fixed message for a query the validator rejects, or [str(e)] for the
    exception [e] that, in this run, executing the statement or the commit
    raised. *)
Theorem query_data_result_shape {Db} `{Driver Db} (sql : text)
    (w w' : world Db) (r : query_result) :
  query_data sql w = (w', Ret r) ->
  (qr_success r = true ->
     exists d1 d2 d3 rs1 rs2 rows,
       drv_connect (w_committed w) = None /\
       drv_execute (w_committed w) (t "SET TRANSACTION READ ONLY") = inl (d1, rs1) /\
       drv_execute d1 (t "START TRANSACTION") = inl (d2, rs2) /\
       drv_execute d2 sql = inl (d3, rows) /\
       qr_results r = Some rows /\ qr_rowCount r = Some (length rows) /\
       qr_error r = None) /\
  (qr_success r = false ->
     qr_results r = None /\ qr_rowCount r = None /\
     ((is_safe_query sql = false /\ qr_error r = Some unsafe_msg) \/
      (is_safe_query sql = true /\
       exists d1 d2 rs1 rs2 e,
         drv_connect (w_committed w) = None /\
         drv_execute (w_committed w) (t "SET TRANSACTION READ ONLY") = inl (d1, rs1) /\
         drv_execute d1 (t "START TRANSACTION") = inl (d2, rs2) /\
         qr_error r = Some (exn_msg e) /\
         (drv_execute d2 sql = inr e \/
          exists d3 rows, drv_execute d2 sql = inl (d3, rows) /\ drv_commit d3 = Some e)))).
Proof.
  intros Hq. destruct (is_safe_query sql) eqn:Hs.
  - run_server. rewrite Hs in Hq. simpl in Hq.
    repeat (case_match; simplify_eq; simpl in * );
      split; intros Hsc; try discriminate;
      first [ do 6 eexists; repeat split; eassumption
            | split; [done|]; split; [done|]; right; split; [done|];
              do 5 eexists; repeat split; eauto ].
  - rewrite (query_data_rejects_unsafe sql w Hs) in Hq. simplify_eq.
    split; [discriminate|]. intros _. eauto.
Qed.

Import Toy.

Lemma query_data_rejects_unsafe_witness :
  is_safe_query (t "DELETE FROM users") = false /\
  query_data (t "DELETE FROM users") (start college)
  = (start college, Ret (MkResult false None None (Some unsafe_msg))).
Proof.
  split; [vm_compute; reflexivity|].
  apply query_data_rejects_unsafe. vm_compute. reflexivity.
Defined.

Lemma query_data_result_shape_witness :
  exists d1 d2 d3 rs1 rs2 rows,
    drv_connect (w_committed (start college)) = None /\
    drv_execute (w_committed (start college)) (t "SET TRANSACTION READ ONLY")
      = inl (d1, rs1) /\
    drv_execute d1 (t "START TRANSACTION") = inl (d2, rs2) /\
    drv_execute d2 (t "SELECT * FROM users") = inl (d3, rows) /\
    qr_results users_result = Some rows /\
    qr_rowCount users_result = Some (length rows) /\
    qr_error users_result = None.
Proof.
  refine (proj1 (query_data_result_shape (t "SELECT * FROM users") (start college)
                   (fst (query_data (t "SELECT * FROM users") (start college)))
                   users_result _) _); vm_compute; reflexivity.
Defined.

(** C3 fails: a statement raising an exception whose message is empty
    yields [success=false] with an empty [error]. *)
Lemma query_data_empty_error_counterexample :
  is_safe_query (t "SELECT * FROM nope") = true /\
  snd (query_data (t "SELECT * FROM nope") (start silent))
  = Ret (MkResult false None None (Some [])).
Proof. vm_compute. split; reflexivity. Qed.

Lemma committed_after_idem {Db} `{Driver Db} (c d : Db) :
  committed_after (committed_after c d) d = committed_after c d.
Proof. unfold committed_after. destruct (drv_durable d); done. Qed.

(** C4 (as amended): when the statement or the commit raises [e],
    [query_data] calls [rollback], which undoes only the open transaction:
    the data committed afterwards is what the executed batches committed
    themselves, which survives.  It answers [success=false] with [str(e)]
    only when the rollback and then [cursor.close()] succeed.  If the
    rollback raises, its exception propagates; if [cursor.close()] raises,
    its exception replaces the outcome and the connection is not closed. *)
Theorem query_data_exec_failure {Db} `{Driver Db} (sql : text) (w : world Db)
    (d1 d2 dr : Db) (rs1 rs2 : list row) (e : exn) :
  is_safe_query sql = true ->
  drv_connect (w_committed w) = None ->
  drv_execute (w_committed w) (t "SET TRANSACTION READ ONLY") = inl (d1, rs1) ->
  drv_execute d1 (t "START TRANSACTION") = inl (d2, rs2) ->
  (drv_execute d2 sql = inr e /\ dr = d2) \/
  (exists rs, drv_execute d2 sql = inl (dr, rs) /\ drv_commit dr = Some e) ->
  let '(w', o) := query_data sql w in
  In EvRollback (w_log w') /\
  w_committed w'
    = committed_after (committed_after (committed_after (w_committed w) d1) d2) dr /\
  (drv_rollback dr = None ->
     (drv_close_cursor (w_committed w') = None ->
        o = Ret (MkResult false None None (Some (exn_msg e))) /\
        w_working w' = w_committed w') /\
     (forall e'', drv_close_cursor (w_committed w') = Some e'' ->
        o = Raise e'' /\ exists l, w_log w' = w_log w ++ l /\ ~ In EvCloseConn l)) /\
  (forall e', drv_rollback dr = Some e' ->
     (drv_close_cursor dr = None -> o = Raise e') /\
     (forall e'', drv_close_cursor dr = Some e'' ->
        o = Raise e'' /\ exists l, w_log w' = w_log w ++ l /\ ~ In EvCloseConn l)).
Proof.
  intros Hs Hc H1 H2 Hstmt.
  destruct Hstmt as [[He ->] | [rs [He Hcm]]];
    run_server; rewrite Hs; simpl; rewrite Hc; simpl; rewrite H1; simpl;
    rewrite H2; simpl; rewrite He; simpl; [|rewrite Hcm; simpl];
    destruct (drv_rollback _) eqn:Hr; simpl;
    unfold close_cursor, emit, bind; simpl;
    destruct (drv_close_cursor _) eqn:Hcc; simpl;
    rewrite ?committed_after_idem;
    (split; [rewrite ?in_app_iff; simpl; tauto|]);
    (split; [try done|]);
    (split; [intros Hn; split; [intros Hc'|intros e'' Hc']
            |intros e' He'; split; [intros Hc'|intros e'' Hc']]);
    simplify_eq; try congruence; (split; [congruence|]);
    try reflexivity.
  all: rewrite <- !app_assoc; eexists; split; [reflexivity|];
    simpl; intuition discriminate.
Qed.

Lemma query_data_exec_failure_witness :
  let '(w', o) := query_data (t "SELECT * FROM nope") (start college) in
  In EvRollback (w_log w') /\
  w_committed w'
    = committed_after (committed_after (committed_after (w_committed (start college))
                                          college) college) college /\
  (drv_rollback college = None ->
     (drv_close_cursor (w_committed w') = None ->
        o = Ret (MkResult false None None (Some (exn_msg no_such_table))) /\
        w_working w' = w_committed w') /\
     (forall e'', drv_close_cursor (w_committed w') = Some e'' ->
        o = Raise e'' /\ exists l, w_log w' = w_log (start college) ++ l /\ ~ In EvCloseConn l)) /\
  (forall e', drv_rollback college = Some e' ->
     (drv_close_cursor college = None -> o = Raise e') /\
     (forall e'', drv_close_cursor college = Some e'' ->
        o = Raise e'' /\ exists l, w_log w' = w_log (start college) ++ l /\ ~ In EvCloseConn l)).
Proof.
  apply (query_data_exec_failure (t "SELECT * FROM nope") (start college)
           college college college [] [] no_such_table);
    vm_compute; first [reflexivity | left; split; reflexivity].
Defined.

(** C4 fails: the batch [SELECT 1; COMMIT; REPLACE ...; COMMIT] passes the
    validator and writes a row that stays committed, while [query_data]
    raises "Commands out of sync" (from [commit], then from [rollback])
    instead of answering; with [SELECT 1; SELECT * FROM nope], it is the
    error of [cursor.close()] that propagates, and the connection is not
    closed; and when the connection drops, the rollback's error
    propagates. *)
Lemma query_data_exec_failure_counterexample :
  is_safe_query batch_commit = true /\
  snd (query_data batch_commit (start college)) = Raise out_of_sync /\
  db_data (w_committed (fst (query_data batch_commit (start college))))
  = [(t "users", users_rows ++ [eve_row])] /\
  is_safe_query batch_nope = true /\
  snd (query_data batch_nope (start college)) = Raise no_such_table /\
  ~ In EvCloseConn (w_log (fst (query_data batch_nope (start college)))) /\
  snd (query_data (t "SELECT * FROM nope") (start lost)) = Raise lost_rollback.
Proof.
  vm_compute. repeat split; try reflexivity.
  intros H. repeat (destruct H as [H|H]; [discriminate|]). exact H.
Qed.

(* ================================================================== *)
(** ** The server's schema resource *)

Lemma describe_tables_log {Db} `{Driver Db} (names : list json)
    (schema : list (text * json)) (w w' : world Db) (s : list (text * json)) :
  describe_tables names schema w = (w', Ret s) ->
  (Forall (fun n => ~ In "`"%char (py_str n)) names -> w_committed w' = w_committed w) /\
  w_log w' = w_log w ++ flat_map (fun n => [EvExecute (describe_query n); EvFetch]) names.
Proof.
  revert schema w. induction names as [|n names IH]; intros schema w Hd; simpl in Hd.
  - unfold ret in Hd. simplify_eq. rewrite app_nil_r. done.
  - unfold bind, cursor_execute, fetchall, lift, emit in Hd. simpl in Hd.
    repeat (case_match; simplify_eq; simpl in * ).
    apply IH in Hd as [Hc Hl]. simpl in *. split.
    + intros Hf. inversion Hf as [|? ? Hn Hf']; subst.
      rewrite Hc by exact Hf'. simpl. unfold committed_after.
      erewrite drv_describe_durable by eassumption. done.
    + rewrite Hl, <- !app_assoc. done.
Qed.


(** C10: the [mysql://schema] resource keeps no cache: every call that
    returns a schema has connected, run [SHOW TABLES], then run [DESCRIBE]
    for each listed table and closed the connection, whatever calls came
    before; and, when no listed table name holds a backtick (which could
    smuggle a statement into [DESCRIBE `name`]), it commits nothing. *)
Theorem server_get_schema_introspects {Db} `{Driver Db} (db_name : text)
    (w w' : world Db) (v : json) :
  server_get_schema db_name w = (w', Ret v) ->
  exists d rs names,
    drv_execute (w_committed w) (t "SHOW TABLES") = inl (d, rs) /\
    omap first_value rs = Ret names /\
    (Forall (fun n => ~ In "`"%char (py_str n)) names -> w_committed w' = w_committed w) /\
    w_log w' = w_log w ++ introspection_trace names.
Proof.
  intros Hg. unfold server_get_schema, try_finally, close_all, close_cursor, close_conn,
    get_connection, conn_cursor, cursor_execute, fetchall, lift, emit, bind, ret in Hg.
  simpl in Hg.
  repeat (case_match; simplify_eq; simpl in * ).
  match goal with Hd : describe_tables _ _ _ = _ |- _ =>
    apply describe_tables_log in Hd as [Hc Hl] end.
  simpl in *. do 3 eexists. split; [eassumption|]. split; [eassumption|].
  split.
  { intros Hf. rewrite Hc by exact Hf. simpl. unfold committed_after.
    erewrite drv_show_tables_durable by eassumption. done. }
  rewrite Hl. unfold introspection_trace. rewrite <- !app_assoc. done.
Qed.

Lemma server_get_schema_introspects_witness :
  exists d rs names,
    drv_execute (w_committed (start college)) (t "SHOW TABLES") = inl (d, rs) /\
    omap first_value rs = Ret names /\
    (Forall (fun n => ~ In "`"%char (py_str n)) names ->
     w_committed (fst (server_get_schema (t "college") (start college)))
       = w_committed (start college)) /\
    w_log (fst (server_get_schema (t "college") (start college)))
      = w_log (start college) ++ introspection_trace names.
Proof.
  apply (server_get_schema_introspects (t "college") (start college)
           (fst (server_get_schema (t "college") (start college))) schema_doc).
  vm_compute. reflexivity.
Defined.

(* ================================================================== *)
(** ** The converter's schema cache *)

Ltac run_client :=
  unfold get_schema, bind, cache_has, cache_get, cache_store,
    session_read_resource, ret in *; simpl in *.

(** C6: once [get_schema] has returned a schema for an identifier, a
    second call returns the same value and leaves the converter exactly as
    it was: the I/O log does not grow, so no resource is read. *)
Theorem get_schema_idempotent `{Collaborators} (db_identifier : text)
    (w w1 : cworld) (v : json) :
  get_schema db_identifier w = (w1, Ret v) ->
  get_schema db_identifier w1 = (w1, Ret v).
Proof.
  intros Hg. run_client.
  repeat (case_match; simplify_eq; simpl in * ); simplify_map_eq; done.
Qed.

Lemma get_schema_idempotent_witness :
  get_schema (t "mysql://schema") (fst (get_schema (t "mysql://schema") fresh))
  = (fst (get_schema (t "mysql://schema") fresh), Ret schema_doc).
Proof.
  apply (get_schema_idempotent (t "mysql://schema") fresh). vm_compute. reflexivity.
Defined.

(** C7 (as amended): on a cache miss, an exception of the resource read
    (the server's connection or introspection failing) is re-raised
    unchanged and the cache is left as it was; a read that returns is
    cached whatever it holds, also the error dicts [extract_resource_content]
    builds for a reply without contents or with non-JSON contents. *)
Theorem get_schema_miss `{Collaborators} (db_identifier : text) (w : cworld) :
  schema_cache w !! db_identifier = None ->
  (forall e, read_resource (io_log w) db_identifier = Raise e ->
     get_schema db_identifier w
     = (MkCWorld (schema_cache w) (io_log w ++ [EvReadResource db_identifier]), Raise e)) /\
  (forall rc, read_resource (io_log w) db_identifier = Ret rc ->
     get_schema db_identifier w
     = (MkCWorld (<[db_identifier := extract_resource_content rc]> (schema_cache w))
                 (io_log w ++ [EvReadResource db_identifier]),
        Ret (extract_resource_content rc))).
Proof.
  intros Hn. run_client. rewrite Hn. split.
  - intros e He. rewrite He. done.
  - intros rc Hr. rewrite Hr. simpl. simplify_map_eq. done.
Qed.

Lemma get_schema_miss_witness :
  get_schema (t "mysql://empty") fresh
  = (MkCWorld (<[t "mysql://empty" := JObj [(t "error", JStr (t "No content found"))]]> ∅)
              [EvReadResource (t "mysql://empty")],
     Ret (JObj [(t "error", JStr (t "No content found"))])).
Proof.
  apply (proj2 (get_schema_miss (t "mysql://empty") fresh eq_refl) (t "contents", [])).
  reflexivity.
Defined.

(** C7 fails: the failure of the resource read surfaces as the session's
    own exception, not as a distinct [SchemaUnavailable] condition. *)
Lemma get_schema_unavailable_counterexample :
  get_schema (t "mysql://down") fresh
  = (MkCWorld ∅ [EvReadResource (t "mysql://down")], Raise mcp_error) /\
  exn_cls mcp_error <> t "SchemaUnavailable".
Proof. split; [reflexivity | vm_compute; discriminate]. Qed.

(* ================================================================== *)
(** ** The translator *)

(** C5: [generate_sql] never raises.  A failing schema read or model call
    becomes a reply with [error] set and [sql = ""]; a model reply that is
    not JSON becomes the reply with [error = "Invalid JSON response"] and
    [sql = ""]. *)
Theorem generate_sql_never_raises `{Collaborators} (model nl_query db_identifier : text)
    (w : cworld) :
  (exists w' r, generate_sql model nl_query db_identifier w = (w', Ret r)) /\
  (schema_cache w !! db_identifier = None ->
   forall e, read_resource (io_log w) db_identifier = Raise e ->
   snd (generate_sql model nl_query db_identifier w)
   = Ret (failed_result (t "Generation failed: " ++ exn_msg e))) /\
  (forall w1 v s, get_schema db_identifier w = (w1, Ret v) ->
   py_contains (t "error") v = Ret false -> format_schema v = Ret s ->
   (forall e, chat_create (io_log w1) model (build_prompt nl_query s) = Raise e ->
    snd (generate_sql model nl_query db_identifier w)
    = Ret (failed_result (t "Generation failed: " ++ exn_msg e))) /\
   (forall response,
    chat_create (io_log w1) model (build_prompt nl_query s) = Ret (Some response) ->
    json_loads response = None ->
    snd (generate_sql model nl_query db_identifier w) = Ret (invalid_json_result response))).
Proof.
  split; [|split].
  - unfold generate_sql, try_except.
    match goal with |- context [match ?m w with _ => _ end] =>
      destruct (m w) as [w' [r|e]] end; unfold ret; eauto.
  - intros Hn e He. destruct (get_schema_miss db_identifier w Hn) as [Hr _].
    unfold generate_sql, try_except, bind at 1. rewrite (Hr e He). reflexivity.
  - intros w1 v s Hg Hc Hf. split.
    + intros e He. unfold generate_sql, try_except, bind at 1. rewrite Hg.
      unfold bind, lift, chat. rewrite Hc. simpl. rewrite Hf. simpl. rewrite He.
      reflexivity.
    + intros response He Hj. unfold generate_sql, try_except, bind at 1. rewrite Hg.
      unfold bind, lift, chat. rewrite Hc. simpl. rewrite Hf. simpl. rewrite He.
      simpl. rewrite Hj. reflexivity.
Qed.

Lemma generate_sql_never_raises_witness :
  snd (generate_sql (t "qwen-plus") (t "list all users") (t "mysql://down") fresh)
  = Ret (failed_result (t "Generation failed: " ++ exn_msg mcp_error)).
Proof.
  apply (proj1 (proj2 (generate_sql_never_raises (t "qwen-plus") (t "list all users")
                         (t "mysql://down") fresh)) eq_refl mcp_error).
  reflexivity.
Defined.

(* ================================================================== *)
(** ** Lemmas on [_clean_sql] *)

Lemma containsb_cons (k : text) (a : ascii) (s : text) :
  containsb k (a :: s) = prefixb k (a :: s) || containsb k s.
Proof. reflexivity. Qed.

Lemma containsb_short (k s : text) :
  length s < length k -> containsb k s = false.
Proof.
  intros Hl. destruct (containsb k s) eqn:E; [|done].
  apply containsb_spec in E as (a & b & ->).
  rewrite !length_app in Hl. lia.
Qed.

Lemma remove_fences_unfold (a b c : ascii) (rest : text) :
  remove_fences (a :: b :: c :: rest) =
  if is_backtick a && is_backtick b && is_backtick c then
    match rest with
    | x :: y :: z :: rest' =>
        if is_s x && is_q y && is_l z then remove_fences rest'
        else remove_fences rest
    | _ => remove_fences rest
    end
  else a :: remove_fences (b :: c :: rest).
Proof. reflexivity. Qed.

Lemma remove_fences_keep (a : ascii) (s1 : text) :
  (forall b c rest, s1 = b :: c :: rest ->
     is_backtick a && is_backtick b && is_backtick c = false) ->
  remove_fences (a :: s1) = a :: remove_fences s1.
Proof.
  intros Hk. destruct s1 as [|b [|c rest]]; try reflexivity.
  rewrite remove_fences_unfold, (Hk b c rest eq_refl). reflexivity.
Qed.

(** A backtick at the head of the output was a backtick at the head of
    the input. *)
Lemma remove_fences_head (s : text) (x : ascii) (r : text) :
  remove_fences s = x :: r -> is_backtick x = true ->
  exists y s', s = y :: s' /\ is_backtick y = true.
Proof.
  intros Hs Hx. destruct s as [|a s1]; [discriminate|].
  destruct (is_backtick a) eqn:Ea; [eauto|].
  rewrite remove_fences_keep in Hs.
  - injection Hs as -> _. congruence.
  - intros b c rest _. rewrite Ea. reflexivity.
Qed.

Lemma remove_fences_head2 (s : text) (x y : ascii) (r : text) :
  remove_fences s = x :: y :: r -> is_backtick x = true -> is_backtick y = true ->
  exists a b s', s = a :: b :: s' /\ is_backtick a = true /\ is_backtick b = true.
Proof.
  intros Hs Hx Hy. destruct s as [|a s1]; [discriminate|].
  destruct s1 as [|b [|c rest]].
  - discriminate.
  - simpl in Hs. injection Hs as -> -> _. exists x, y, []. done.
  - destruct (is_backtick a && is_backtick b && is_backtick c) eqn:E.
    + apply andb_true_iff in E as [E _]. apply andb_true_iff in E as [Ea Eb].
      eauto 6.
    + rewrite remove_fences_unfold, E in Hs.
      remember (remove_fences (b :: c :: rest)) as X eqn:HX.
      injection Hs as -> Hs. subst X.
      destruct (remove_fences_head _ _ _ Hs Hy) as (y' & s' & Heq & Hy').
      injection Heq as <- _. eauto 6.
Qed.

(** [re.sub(r'```sql|```', '', sql)] leaves no [```] behind. *)
Lemma remove_fences_no_fence (s : text) :
  containsb fence (remove_fences s) = false.
Proof.
  remember (length s) as n eqn:Hn. assert (Hle : length s <= n) by lia. clear Hn.
  revert s Hle. induction n as [|n IH]; intros s Hle.
  { destruct s; [reflexivity | simpl in Hle; lia]. }
  destruct s as [|a [|b [|c rest]]]; try (apply containsb_short; simpl; lia).
  destruct (is_backtick a && is_backtick b && is_backtick c) eqn:E.
  - rewrite remove_fences_unfold, E. simpl in Hle.
    destruct rest as [|x [|y [|z rest']]]; try (apply IH; simpl; lia).
    destruct (is_s x && is_q y && is_l z); apply IH; simpl in *; lia.
  - rewrite remove_fences_unfold, E, containsb_cons, (IH (b :: c :: rest));
      [|simpl in *; lia].
    rewrite orb_false_r. destruct (prefixb _ _) eqn:P; [|reflexivity].
    apply prefixb_spec in P as [r Hr].
    remember (remove_fences (b :: c :: rest)) as X eqn:HX.
    simpl in Hr. injection Hr as -> Hr. subst X.
    destruct (remove_fences_head2 _ _ _ _ Hr eq_refl eq_refl)
      as (a' & b' & s' & Heq & Ha' & Hb').
    injection Heq as <- <- _. rewrite Ha', Hb' in E. discriminate.
Qed.

Lemma drop_while_suffix (f : ascii -> bool) (s : text) :
  exists p, s = p ++ drop_while f s.
Proof.
  induction s as [|c s [p Hp]]; simpl; [exists []; done|].
  destruct (f c); [exists (c :: p); simpl; congruence | exists []; done].
Qed.

(** Trimming at both ends, as [str.strip] and the quote [re.sub] do,
    leaves an infix of the text. *)
Lemma trim_infix (f g : ascii -> bool) (s : text) :
  exists a b, s = a ++ rev (drop_while f (rev (drop_while g s))) ++ b.
Proof.
  destruct (drop_while_suffix g s) as [a Ha].
  set (D := drop_while g s) in *.
  destruct (drop_while_suffix f (rev D)) as [q Hq].
  exists a, (rev q). rewrite Ha at 1. f_equal.
  rewrite <- (rev_involutive D) at 1. rewrite Hq at 1. apply rev_app_distr.
Qed.

Lemma containsb_infix (k a m b : text) :
  containsb k (a ++ m ++ b) = false -> containsb k m = false.
Proof.
  intros H. destruct (containsb k m) eqn:E; [|done].
  apply containsb_spec in E as (x & y & ->).
  assert (containsb k (a ++ (x ++ k ++ y) ++ b) = true) as Ht; [|congruence].
  apply containsb_spec. exists (a ++ x), (y ++ b). rewrite <- !app_assoc. done.
Qed.

Lemma containsb_fence_snoc (s : text) :
  containsb fence s = false -> containsb fence (s ++ t ";") = false.
Proof.
  intros H. destruct (containsb fence (s ++ t ";")) eqn:E; [|done].
  apply containsb_spec in E as (a & b & Hab).
  destruct b as [|z b _] using rev_ind.
  - apply (f_equal (@rev ascii)) in Hab. rewrite !rev_app_distr in Hab.
    simpl in Hab. discriminate.
  - rewrite !app_assoc in Hab. apply app_inj_tail in Hab as [Hab _].
    assert (containsb fence s = true); [|congruence].
    apply containsb_spec. exists a, b. rewrite Hab, !app_assoc. done.
Qed.

Lemma ends_with_char_spec (c : ascii) (s : text) :
  ends_with_char c s = true <-> exists u, s = u ++ [c].
Proof.
  unfold ends_with_char. split.
  - destruct (rev s) as [|d r] eqn:E; [discriminate|].
    intros Hd. apply ascii_eqb_eq in Hd as ->. exists (rev r).
    rewrite <- (rev_involutive s), E. done.
  - intros [u ->]. rewrite rev_app_distr. simpl. apply ascii_eqb_eq. done.
Qed.

Lemma drop_while_snoc (f : ascii -> bool) (u : text) (z : ascii) :
  f z = false -> exists v, drop_while f (u ++ [z]) = v ++ [z].
Proof.
  intros Hz. induction u as [|c u [v Hv]]; simpl.
  - rewrite Hz. exists []. done.
  - destruct (f c); [exists v; done | exists (c :: u); done].
Qed.

(** [str.strip] keeps a final character that is not whitespace. *)
Lemma py_strip_ends_with (c : ascii) (s : text) :
  is_space c = false -> ends_with_char c s = true -> ends_with_char c (py_strip s) = true.
Proof.
  intros Hc Hs. apply ends_with_char_spec in Hs as [u ->].
  apply ends_with_char_spec. unfold py_strip, py_rstrip, py_lstrip.
  destruct (drop_while_snoc is_space u c Hc) as [v ->].
  rewrite rev_app_distr. simpl. rewrite Hc. exists v.
  simpl. rewrite rev_involutive. done.
Qed.

Lemma drop_while_all (f : ascii -> bool) (a s : text) :
  Forall (fun x => f x = true) a -> drop_while f (a ++ s) = drop_while f s.
Proof. induction 1 as [|x a Hx _ IH]; simpl; [|rewrite Hx]; done. Qed.

(** [re.sub(r'^["\']+|["\']+$', '', s)] removes exactly the outer runs of
    quotes. *)
Lemma strip_quotes_runs (a b c : text) :
  Forall (fun x => is_quote x = true) a -> Forall (fun x => is_quote x = true) c ->
  (forall x, hd_error b = Some x -> is_quote x = false) ->
  (forall x, hd_error (rev b) = Some x -> is_quote x = false) ->
  strip_quotes (a ++ b ++ c) = b.
Proof.
  intros Ha Hc Hb1 Hb2. unfold strip_quotes. rewrite drop_while_all by done.
  destruct b as [|x b'].
  - simpl. rewrite <- (app_nil_r c) at 1. rewrite drop_while_all by done.
    reflexivity.
  - simpl. rewrite (Hb1 x eq_refl).
    change (x :: b' ++ c) with ((x :: b') ++ c). rewrite rev_app_distr.
    rewrite drop_while_all by (apply List.Forall_rev; exact Hc).
    destruct (rev (x :: b')) as [|y r] eqn:E.
    { apply (f_equal (@length ascii)) in E. rewrite length_rev in E. discriminate. }
    simpl.
    rewrite (Hb2 y eq_refl), <- E, rev_involutive. done.
Qed.

Lemma text_eqb_eq (a b : text) : text_eqb a b = true <-> a = b.
Proof.
  revert b; induction a as [|x a IH]; intros [|y b]; simpl;
    try (split; [discriminate | done]); [done|].
  rewrite andb_true_iff, ascii_eqb_eq, IH. split; [intros [-> ->] | intros Heq; injection Heq]; done.
Qed.

Lemma dict_lookup_set_eq (k : text) (v : json) (kvs : list (text * json)) :
  dict_lookup k (dict_set k v kvs) = Some v.
Proof.
  induction kvs as [|[k' v'] r IH]; simpl.
  - rewrite (proj2 (text_eqb_eq k k) eq_refl). done.
  - destruct (text_eqb k k') eqn:E; simpl; rewrite E; done.
Qed.

Lemma dict_lookup_set_ne (k k1 : text) (v : json) (kvs : list (text * json)) :
  text_eqb k k1 = false ->
  dict_lookup k (dict_set k1 v kvs) = dict_lookup k kvs.
Proof.
  intros Hne. induction kvs as [|[k' v'] r IH]; simpl.
  - rewrite Hne. done.
  - destruct (text_eqb k1 k') eqn:E; simpl.
    + apply text_eqb_eq in E as <-. rewrite Hne. done.
    + rewrite IH. done.
Qed.

Lemma clean_sql_ends_with (s : text) :
  ends_with_char ";"%char (clean_sql s) = true.
Proof.
  unfold clean_sql. apply py_strip_ends_with; [reflexivity|].
  destruct (ends_with_char _ (strip_quotes _)) eqn:E; simpl; [done|].
  apply ends_with_char_spec. eexists. reflexivity.
Qed.

Lemma clean_sql_no_fence (s : text) :
  containsb fence (clean_sql s) = false.
Proof.
  unfold clean_sql, py_strip, py_rstrip, py_lstrip, strip_quotes.
  set (R := remove_fences s).
  destruct (trim_infix is_space is_space R) as (a1 & b1 & H1).
  set (P := rev (drop_while is_space (rev (drop_while is_space R)))) in *.
  destruct (trim_infix is_quote is_quote P) as (a2 & b2 & H2).
  set (Q := rev (drop_while is_quote (rev (drop_while is_quote P)))) in *.
  assert (HQ : containsb fence Q = false).
  { apply (containsb_infix _ (a1 ++ a2) _ (b2 ++ b1)).
    assert (Heq : (a1 ++ a2) ++ Q ++ b2 ++ b1 = R).
    { rewrite H1, H2. rewrite <- !app_assoc. reflexivity. }
    rewrite Heq. apply remove_fences_no_fence. }
  set (Q' := if negb (ends_with_char ";"%char Q) then Q ++ t ";" else Q).
  assert (HQ' : containsb fence Q' = false).
  { unfold Q'. destruct (negb _); [apply containsb_fence_snoc|]; done. }
  destruct (trim_infix is_space is_space Q') as (a3 & b3 & H3).
  apply (containsb_infix _ a3 _ b3). rewrite <- H3. done.
Qed.

(** C8 (as amended): [_clean_sql] always returns a text that ends with
    [;] and holds no code fence [```].  The quotes it strips are exactly
    the leading and the trailing run of quotes of the stripped, fence-free
    text, so a quote separated from that run by whitespace stays.  In
    [_parse_response], a reply whose [sql] cleans to [;], or that has no
    [sql], gets the model's own [error], or else "Generated SQL is empty",
    and keeps the cleaned [sql]. *)
Theorem clean_sql_and_empty_check `{Collaborators} (s : text) :
  ends_with_char ";"%char (clean_sql s) = true /\
  containsb (t "```") (clean_sql s) = false /\
  (forall a b c, py_strip (remove_fences s) = a ++ b ++ c ->
     Forall (fun x => is_quote x = true) a -> Forall (fun x => is_quote x = true) c ->
     (forall x, hd_error b = Some x -> is_quote x = false) ->
     (forall x, hd_error (rev b) = Some x -> is_quote x = false) ->
     clean_sql s = py_strip (if ends_with_char ";"%char b then b else b ++ t ";")) /\
  (forall response kvs, json_loads response = Some (JObj kvs) ->
     (dict_lookup (t "sql") kvs = Some (JStr s) -> clean_sql s = t ";" ->
        parse_response (Some response)
        = Ret (JObj (dict_set (t "error")
                       (match dict_lookup (t "error") kvs with
                        | Some e => e | None => JStr empty_sql_msg end)
                       (dict_set (t "sql") (JStr (t ";")) kvs)))) /\
     (dict_lookup (t "sql") kvs = None ->
        parse_response (Some response)
        = Ret (JObj (dict_set (t "error")
                       (match dict_lookup (t "error") kvs with
                        | Some e => e | None => JStr empty_sql_msg end) kvs)))).
Proof.
  split; [apply clean_sql_ends_with|]. split; [apply clean_sql_no_fence|]. split.
  - intros a b c Hs Ha Hc Hb1 Hb2. unfold clean_sql.
    rewrite Hs, strip_quotes_runs by done. destruct (ends_with_char _ b); done.
  - intros response kvs Hj. split.
    + intros Hs Hc. unfold parse_response. rewrite Hj.
      cbn -[clean_sql dict_lookup dict_set t]. rewrite Hs.
      cbn -[clean_sql dict_lookup dict_set t]. rewrite Hc.
      cbn -[dict_lookup dict_set t]. rewrite dict_lookup_set_eq.
      cbn -[dict_lookup dict_set t]. rewrite dict_lookup_set_ne by reflexivity.
      reflexivity.
    + intros Hs. unfold parse_response. rewrite Hj.
      cbn -[dict_lookup dict_set t]. rewrite Hs.
      cbn -[dict_lookup dict_set t]. rewrite Hs. reflexivity.
Qed.

Lemma clean_sql_and_empty_check_witness :
  clean_sql (dq ++ t " 'SELECT 1'" ++ dq)
  = py_strip (if ends_with_char ";"%char (t " 'SELECT 1") then t " 'SELECT 1"
              else t " 'SELECT 1" ++ t ";") /\
  parse_response (Some reply_empty)
  = Ret (JObj (dict_set (t "error")
                 (match dict_lookup (t "error") [(t "sql", JStr []); (t "confidence", JNum 0)] with
                  | Some e => e | None => JStr empty_sql_msg end)
                 (dict_set (t "sql") (JStr (t ";"))
                    [(t "sql", JStr []); (t "confidence", JNum 0)]))).
Proof.
  split.
  - apply (proj1 (proj2 (proj2 (@clean_sql_and_empty_check collaborators (dq ++ t " 'SELECT 1'" ++ dq))))
             dq (t " 'SELECT 1") (sq ++ dq)).
    + vm_compute. reflexivity.
    + repeat constructor.
    + repeat constructor.
    + intros x Hx. vm_compute in Hx. injection Hx as <-. reflexivity.
    + intros x Hx. vm_compute in Hx. injection Hx as <-. reflexivity.
  - apply (proj1 (proj2 (proj2 (proj2 (@clean_sql_and_empty_check collaborators []))) reply_empty
             [(t "sql", JStr []); (t "confidence", JNum 0)] eq_refl)).
    + reflexivity.
    + vm_compute. reflexivity.
Defined.

(** C8 fails as stated: a quote separated from the outer quote run by
    whitespace survives the cleaning, so the result begins with a quote. *)
Lemma clean_sql_leading_quote_counterexample :
  clean_sql (dq ++ t " 'SELECT 1'" ++ dq) = sq ++ t "SELECT 1;" /\
  hd_error (clean_sql (dq ++ t " 'SELECT 1'" ++ dq)) = Some (ascii_of_nat 39) /\
  is_quote (ascii_of_nat 39) = true.
Proof. vm_compute. split; [reflexivity | split; reflexivity]. Qed.

(* ================================================================== *)
(** ** More of the server: the log only grows, the [finally] closes *)

Create HintDb log_grows.

Section LogGrows.
Context {Db : Type} `{Driver Db}.

Lemma log_grows_ret {A} (a : A) : log_grows (Db:=Db) (ret a).
Proof. intros w. exists []. rewrite app_nil_r. done. Qed.

Lemma log_grows_lift {A} (o : outcome A) : log_grows (Db:=Db) (lift o).
Proof. intros w. exists []. rewrite app_nil_r. done. Qed.

Lemma log_grows_bind {A B} (m : PyM (world Db) A) (k : A -> PyM (world Db) B) :
  log_grows m -> (forall a, log_grows (k a)) -> log_grows (bind m k).
Proof.
  intros Hm Hk w. unfold bind. destruct (Hm w) as [l1 Hl1].
  destruct (m w) as [w1 [a|e]] eqn:E; simpl in *.
  - destruct (Hk a w1) as [l2 Hl2]. exists (l1 ++ l2).
    rewrite Hl2, Hl1, app_assoc. done.
  - exists l1. done.
Qed.

Lemma log_grows_try_except {A} (m : PyM (world Db) A) (h : exn -> PyM (world Db) A) :
  log_grows m -> (forall e, log_grows (h e)) -> log_grows (try_except m h).
Proof.
  intros Hm Hh w. unfold try_except. destruct (Hm w) as [l1 Hl1].
  destruct (m w) as [w1 [a|e]] eqn:E; simpl in *.
  - exists l1. done.
  - destruct (Hh e w1) as [l2 Hl2]. exists (l1 ++ l2).
    rewrite Hl2, Hl1, app_assoc. done.
Qed.

Lemma log_grows_try_finally {A} (m : PyM (world Db) A) (fin : PyM (world Db) unit) :
  log_grows m -> log_grows fin -> log_grows (try_finally m fin).
Proof.
  intros Hm Hf w. unfold try_finally. destruct (Hm w) as [l1 Hl1].
  destruct (m w) as [w1 o] eqn:E. simpl in Hl1. destruct (Hf w1) as [l2 Hl2].
  destruct (fin w1) as [w2 [u|e]]; simpl in *; exists (l1 ++ l2);
    rewrite Hl2, Hl1, app_assoc; done.
Qed.

Lemma log_grows_emit_step {A} (ev : db_event) (f : world Db -> world Db * outcome A) :
  (forall w, w_log (fst (f w)) = w_log w ++ [ev]) -> log_grows f.
Proof. intros Hf w. exists [ev]. apply Hf. Qed.

Lemma log_grows_get_connection : log_grows (Db:=Db) get_connection.
Proof.
  apply (log_grows_emit_step EvConnect). intros w.
  unfold get_connection, emit. simpl. case_match; done.
Qed.

Lemma log_grows_conn_cursor : log_grows (Db:=Db) conn_cursor.
Proof. apply (log_grows_emit_step EvCursor). done. Qed.

Lemma log_grows_cursor_execute (q : text) : log_grows (Db:=Db) (cursor_execute q).
Proof.
  apply (log_grows_emit_step (EvExecute q)). intros w.
  unfold cursor_execute, emit. simpl. repeat case_match; done.
Qed.

Lemma log_grows_fetchall : log_grows (Db:=Db) fetchall.
Proof. apply (log_grows_emit_step EvFetch). done. Qed.

Lemma log_grows_commit : log_grows (Db:=Db) commit.
Proof.
  apply (log_grows_emit_step EvCommit). intros w.
  unfold commit, emit. simpl. case_match; done.
Qed.

Lemma log_grows_rollback : log_grows (Db:=Db) rollback.
Proof.
  apply (log_grows_emit_step EvRollback). intros w.
  unfold rollback, emit. simpl. case_match; done.
Qed.

Lemma log_grows_close_all : log_grows (Db:=Db) close_all.
Proof.
  intros w. unfold close_all, bind, close_cursor, close_conn, emit. simpl.
  destruct (drv_close_cursor (w_working w)); simpl; eexists;
    rewrite <- ?app_assoc; reflexivity.
Qed.

End LogGrows.

#[export] Hint Resolve log_grows_ret log_grows_lift log_grows_bind log_grows_try_except
  log_grows_try_finally log_grows_get_connection log_grows_conn_cursor
  log_grows_cursor_execute log_grows_fetchall log_grows_commit log_grows_rollback
  log_grows_close_all : log_grows.

Lemma log_grows_describe_tables {Db} `{Driver Db} (names : list json)
    (schema : list (text * json)) :
  log_grows (describe_tables names schema).
Proof.
  revert schema. induction names as [|n names IH]; intros schema; simpl;
    eauto 10 with log_grows.
Qed.
#[export] Hint Resolve log_grows_describe_tables : log_grows.

(** [try: body finally: cursor.close(); conn.close()]: when
    [cursor.close()] succeeds, the body's outcome is kept, both closes are
    logged and the open transaction is dropped; when it raises, its
    exception replaces the outcome and [conn.close()] is skipped. *)
Lemma try_finally_close_all {Db} `{Driver Db} {A} (m : PyM (world Db) A) (w : world Db) :
  try_finally m close_all w =
  match drv_close_cursor (w_working (fst (m w))) with
  | None =>
      (MkWorld (w_committed (fst (m w))) (w_committed (fst (m w))) []
               (w_log (fst (m w)) ++ [EvCloseCursor; EvCloseConn]), snd (m w))
  | Some e =>
      (MkWorld (w_committed (fst (m w))) (w_working (fst (m w))) (w_pending (fst (m w)))
               (w_log (fst (m w)) ++ [EvCloseCursor]), Raise e)
  end.
Proof.
  unfold try_finally, close_all, bind, close_cursor, close_conn, emit.
  destruct (m w) as [w1 o]. simpl.
  destruct (drv_close_cursor (w_working w1)); simpl; rewrite <- ?app_assoc; done.
Qed.

(** A call that connects and runs [body] under [try ... finally close]. *)
Lemma connected_closes {Db} `{Driver Db} {A} (body : PyM (world Db) A) (w : world Db) :
  drv_connect (w_committed w) = None -> log_grows body ->
  let '(w', o) := bind get_connection (fun _ => try_finally body close_all) w in
  exists l,
    (w_log w' = w_log w ++ EvConnect :: l ++ [EvCloseCursor; EvCloseConn] /\
     w_working w' = w_committed w' /\ w_pending w' = []) \/
    (w_log w' = w_log w ++ EvConnect :: l ++ [EvCloseCursor] /\
     exists e, drv_close_cursor (w_working w') = Some e /\ o = Raise e).
Proof.
  intros Hc Hb. unfold bind at 1, get_connection, emit. simpl. rewrite Hc.
  rewrite try_finally_close_all. simpl.
  match goal with |- context [body ?w1] =>
    destruct (Hb w1) as [l Hl]; destruct (body w1) as [w2 o] end.
  simpl in *. destruct (drv_close_cursor (w_working w2)) eqn:Hcc; simpl; exists l.
  - right. split; [rewrite Hl, <- !app_assoc; done|]. eauto.
  - left. split; [|done]. rewrite Hl, <- !app_assoc. done.
Qed.

Lemma log_grows_query_data {Db} `{Driver Db} (sql : text) :
  log_grows (query_data sql).
Proof. unfold query_data. case_match; eauto 40 with log_grows. Qed.

Lemma log_grows_get_tables {Db} `{Driver Db} (db_name : text) :
  log_grows (get_tables db_name).
Proof. unfold get_tables. eauto 40 with log_grows. Qed.

Lemma log_grows_server_get_schema {Db} `{Driver Db} (db_name : text) :
  log_grows (server_get_schema db_name).
Proof. unfold server_get_schema. eauto 40 with log_grows. Qed.

(** Once connected, [query_data] (for a query the validator accepts),
    [get_tables] and [get_schema] end by calling [cursor.close()].  Either
    it succeeds, and then [conn.close()] follows: these are the last two
    events of the database I/O, and no transaction is left open.  Or it
    raises (MySQLdb reads the remaining result sets of the cursor), and
    then its exception is the call's outcome and [conn.close()] is never
    called. *)
Theorem server_endpoints_close {Db} `{Driver Db} (db_name sql : text) (w : world Db) :
  drv_connect (w_committed w) = None ->
  (is_safe_query sql = true ->
   let '(w', o) := query_data sql w in
   exists l,
     (w_log w' = w_log w ++ EvConnect :: l ++ [EvCloseCursor; EvCloseConn] /\
      w_working w' = w_committed w' /\ w_pending w' = []) \/
     (w_log w' = w_log w ++ EvConnect :: l ++ [EvCloseCursor] /\
      exists e, drv_close_cursor (w_working w') = Some e /\ o = Raise e)) /\
  (let '(w', o) := get_tables db_name w in
   exists l,
     (w_log w' = w_log w ++ EvConnect :: l ++ [EvCloseCursor; EvCloseConn] /\
      w_working w' = w_committed w' /\ w_pending w' = []) \/
     (w_log w' = w_log w ++ EvConnect :: l ++ [EvCloseCursor] /\
      exists e, drv_close_cursor (w_working w') = Some e /\ o = Raise e)) /\
  (let '(w', o) := server_get_schema db_name w in
   exists l,
     (w_log w' = w_log w ++ EvConnect :: l ++ [EvCloseCursor; EvCloseConn] /\
      w_working w' = w_committed w' /\ w_pending w' = []) \/
     (w_log w' = w_log w ++ EvConnect :: l ++ [EvCloseCursor] /\
      exists e, drv_close_cursor (w_working w') = Some e /\ o = Raise e)).
Proof.
  intros Hc. split; [|split].
  - intros Hs. unfold query_data. rewrite Hs. cbn [negb].
    apply connected_closes; [done | eauto 40 with log_grows].
  - apply connected_closes; [done | eauto 40 with log_grows].
  - apply connected_closes; [done | eauto 40 with log_grows].
Qed.

Lemma server_endpoints_close_witness :
  let '(w', o) := query_data batch_nope (start college) in
  exists l,
    (w_log w' = w_log (start college) ++ EvConnect :: l ++ [EvCloseCursor; EvCloseConn] /\
     w_working w' = w_committed w' /\ w_pending w' = []) \/
    (w_log w' = w_log (start college) ++ EvConnect :: l ++ [EvCloseCursor] /\
     exists e, drv_close_cursor (w_working w') = Some e /\ o = Raise e).
Proof.
  apply (proj1 (@server_endpoints_close db driver (t "college") batch_nope (start college)
                  eq_refl)).
  vm_compute. reflexivity.
Defined.

(** When the connection cannot be made, [query_data] (for a query the
    validator accepts), [get_tables] and [get_schema] raise the
    connection's error, and the connection attempt is the only I/O. *)
Theorem server_endpoints_connect_failure {Db} `{Driver Db} (db_name sql : text)
    (w : world Db) (e : exn) :
  drv_connect (w_committed w) = Some e ->
  (is_safe_query sql = true -> query_data sql w = (emit EvConnect w, Raise e)) /\
  get_tables db_name w = (emit EvConnect w, Raise e) /\
  server_get_schema db_name w = (emit EvConnect w, Raise e).
Proof.
  intros Hc. split; [|split].
  - intros Hs. unfold query_data. rewrite Hs. cbn [negb].
    unfold bind, get_connection. simpl. rewrite Hc. done.
  - unfold get_tables, bind, get_connection. simpl. rewrite Hc. done.
  - unfold server_get_schema, bind, get_connection. simpl. rewrite Hc. done.
Qed.

Lemma server_endpoints_connect_failure_witness :
  query_data (t "SELECT * FROM users") (start down)
  = (emit EvConnect (start down), Raise refused).
Proof.
  apply (proj1 (@server_endpoints_connect_failure db driver (t "college") (t "SELECT * FROM users")
                  (start down) refused eq_refl)).
  vm_compute. reflexivity.
Defined.

(** [get_tables] returns the first column of every row [SHOW TABLES]
    yields, under the configured database name; its I/O is the connection,
    the cursor, [SHOW TABLES], the fetch and the two closes, and it commits
    nothing. *)
Theorem get_tables_lists_tables {Db} `{Driver Db} (db_name : text)
    (w w' : world Db) (v : json) :
  get_tables db_name w = (w', Ret v) ->
  exists d rs names,
    drv_connect (w_committed w) = None /\
    drv_execute (w_committed w) (t "SHOW TABLES") = inl (d, rs) /\
    omap first_value rs = Ret names /\
    v = JObj [(t "database", JStr db_name); (t "tables", JArr names)] /\
    w_committed w' = w_committed w /\
    w_log w' = w_log w ++ [EvConnect; EvCursor; EvExecute (t "SHOW TABLES"); EvFetch;
                           EvCloseCursor; EvCloseConn].
Proof.
  intros Hg. unfold get_tables, try_finally, close_all, close_cursor, close_conn, bind,
    get_connection, conn_cursor, cursor_execute, fetchall, lift, emit, ret in Hg.
  simpl in Hg.
  repeat (case_match; simplify_eq; simpl in * ).
  do 3 eexists. split; [done|]. split; [eassumption|]. split; [eassumption|].
  split; [done|]. split.
  - unfold committed_after. erewrite drv_show_tables_durable by eassumption. done.
  - rewrite <- !app_assoc. done.
Qed.

Lemma get_tables_lists_tables_witness :
  exists d rs names,
    drv_connect (w_committed (start college)) = None /\
    drv_execute (w_committed (start college)) (t "SHOW TABLES") = inl (d, rs) /\
    omap first_value rs = Ret names /\
    JObj [(t "database", JStr (t "college")); (t "tables", JArr [JStr (t "users")])]
    = JObj [(t "database", JStr (t "college")); (t "tables", JArr names)] /\
    w_committed (fst (get_tables (t "college") (start college))) = w_committed (start college) /\
    w_log (fst (get_tables (t "college") (start college)))
    = w_log (start college) ++ [EvConnect; EvCursor; EvExecute (t "SHOW TABLES"); EvFetch;
                                EvCloseCursor; EvCloseConn].
Proof.
  apply (@get_tables_lists_tables db driver (t "college") (start college)
           (fst (get_tables (t "college") (start college)))).
  vm_compute. reflexivity.
Defined.

(** A successful [query_data] ran exactly: connect, cursor,
    [SET TRANSACTION READ ONLY], [START TRANSACTION], the query, the fetch,
    the commit and the two closes.  Its rows are those the query yielded,
    and the data committed is the state the query left. *)
Theorem query_data_success_trace {Db} `{Driver Db} (sql : text) (w w' : world Db)
    (r : query_result) :
  query_data sql w = (w', Ret r) -> qr_success r = true ->
  exists d1 d2 d3 rs1 rs2 rows,
    drv_connect (w_committed w) = None /\
    drv_execute (w_committed w) (t "SET TRANSACTION READ ONLY") = inl (d1, rs1) /\
    drv_execute d1 (t "START TRANSACTION") = inl (d2, rs2) /\
    drv_execute d2 sql = inl (d3, rows) /\
    drv_commit d3 = None /\
    r = MkResult true (Some rows) (Some (length rows)) None /\
    w_committed w' = d3 /\
    w_log w' = w_log w ++ [EvConnect; EvCursor; EvExecute (t "SET TRANSACTION READ ONLY");
                           EvExecute (t "START TRANSACTION"); EvExecute sql; EvFetch;
                           EvCommit; EvCloseCursor; EvCloseConn].
Proof.
  intros Hq Hsucc. destruct (is_safe_query sql) eqn:Hs.
  - run_server. rewrite Hs in Hq. simpl in Hq.
    repeat (case_match; simplify_eq; simpl in * ).
    do 6 eexists. repeat split; try eassumption. rewrite <- !app_assoc. done.
  - unfold query_data in Hq. rewrite Hs in Hq. unfold ret in Hq. simpl in Hq.
    injection Hq as _ <-. discriminate Hsucc.
Qed.

Lemma query_data_success_trace_witness :
  exists d1 d2 d3 rs1 rs2 rows,
    drv_connect (w_committed (start college)) = None /\
    drv_execute (w_committed (start college)) (t "SET TRANSACTION READ ONLY") = inl (d1, rs1) /\
    drv_execute d1 (t "START TRANSACTION") = inl (d2, rs2) /\
    drv_execute d2 (t "SELECT * FROM users") = inl (d3, rows) /\
    drv_commit d3 = None /\
    users_result = MkResult true (Some rows) (Some (length rows)) None /\
    w_committed (fst (query_data (t "SELECT * FROM users") (start college))) = d3 /\
    w_log (fst (query_data (t "SELECT * FROM users") (start college)))
    = w_log (start college) ++
        [EvConnect; EvCursor; EvExecute (t "SET TRANSACTION READ ONLY");
         EvExecute (t "START TRANSACTION"); EvExecute (t "SELECT * FROM users"); EvFetch;
         EvCommit; EvCloseCursor; EvCloseConn].
Proof.
  apply (@query_data_success_trace db driver (t "SELECT * FROM users") (start college)
           (fst (query_data (t "SELECT * FROM users") (start college))) users_result).
  - vm_compute. reflexivity.
  - reflexivity.
Defined.

(** The caller's statement is executed only inside the read-only
    transaction: if [query_data] ran it, the connection,
    [SET TRANSACTION READ ONLY] and [START TRANSACTION] had all succeeded
    before. *)
Theorem query_data_runs_in_transaction {Db} `{Driver Db} (sql : text)
    (w w' : world Db) (o : outcome query_result) :
  query_data sql w = (w', o) ->
  exists l, w_log w' = w_log w ++ l /\
    (In (EvExecute sql) l ->
     exists d1 d2 rs1 rs2,
       drv_connect (w_committed w) = None /\
       drv_execute (w_committed w) (t "SET TRANSACTION READ ONLY") = inl (d1, rs1) /\
       drv_execute d1 (t "START TRANSACTION") = inl (d2, rs2)).
Proof.
  intros Hq. destruct (is_safe_query sql) eqn:Hs.
  - assert (N1 : sql <> t "SET TRANSACTION READ ONLY") by (intros ->; discriminate Hs).
    assert (N2 : sql <> t "START TRANSACTION") by (intros ->; discriminate Hs).
    run_server. rewrite Hs in Hq. simpl in Hq.
    repeat (case_match; simplify_eq; simpl in * );
      (eexists; split; [rewrite <- ?app_assoc; reflexivity|]);
      intros Hin; simpl in Hin; decompose [or] Hin; simplify_eq; eauto 10.
  - unfold query_data in Hq. rewrite Hs in Hq. unfold ret in Hq. simpl in Hq.
    injection Hq as <- _. exists []. split; [rewrite app_nil_r; done | intros []].
Qed.

Lemma query_data_runs_in_transaction_witness :
  exists l,
    w_log (fst (query_data (t "SELECT * FROM nope") (start lost))) = w_log (start lost) ++ l /\
    (In (EvExecute (t "SELECT * FROM nope")) l ->
     exists d1 d2 rs1 rs2,
       drv_connect (w_committed (start lost)) = None /\
       drv_execute (w_committed (start lost)) (t "SET TRANSACTION READ ONLY") = inl (d1, rs1) /\
       drv_execute d1 (t "START TRANSACTION") = inl (d2, rs2)).
Proof.
  apply (@query_data_runs_in_transaction db driver (t "SELECT * FROM nope") (start lost)
           (fst (query_data (t "SELECT * FROM nope") (start lost)))
           (snd (query_data (t "SELECT * FROM nope") (start lost)))).
  vm_compute. reflexivity.
Defined.

(* ================================================================== *)
(** ** More of the validator *)

Lemma lower_char_idem (c : ascii) : lower_char (lower_char c) = lower_char c.
Proof. destruct c as [[] [] [] [] [] [] [] []]; reflexivity. Qed.

Lemma py_lower_idem (s : text) : py_lower (py_lower s) = py_lower s.
Proof.
  unfold py_lower. rewrite map_map. apply map_ext. apply lower_char_idem.
Qed.

Lemma py_lower_spaces (ws : text) :
  Forall (fun c => is_space c = true) ws -> py_lower ws = ws.
Proof.
  induction 1 as [|c ws Hc _ IH]; [done|].
  unfold py_lower in *. simpl. rewrite lower_char_space, IH; done.
Qed.

Lemma drop_while_app_tail (f : ascii -> bool) (x ws : text) :
  Forall (fun c => f c = true) ws ->
  exists ws', drop_while f (x ++ ws) = drop_while f x ++ ws' /\
              Forall (fun c => f c = true) ws'.
Proof.
  intros Hws. induction x as [|c x IH]; simpl.
  - exists []. rewrite <- (app_nil_r ws) at 1. rewrite drop_while_all by done. done.
  - destruct (f c); [done|]. exists ws. done.
Qed.

Lemma py_rstrip_app_spaces (y ws : text) :
  Forall (fun c => is_space c = true) ws -> py_rstrip (y ++ ws) = py_rstrip y.
Proof.
  intros Hws. unfold py_rstrip. rewrite rev_app_distr, drop_while_all; [done|].
  apply List.Forall_rev. done.
Qed.

(** [str.strip] ignores whitespace added around the text. *)
Lemma py_strip_spaces (ws1 x ws2 : text) :
  Forall (fun c => is_space c = true) ws1 -> Forall (fun c => is_space c = true) ws2 ->
  py_strip (ws1 ++ x ++ ws2) = py_strip x.
Proof.
  intros H1 H2. unfold py_strip, py_lstrip. rewrite drop_while_all by done.
  destruct (drop_while_app_tail is_space x ws2 H2) as [ws' [-> Hws']].
  apply py_rstrip_app_spaces. done.
Qed.

Lemma containsb_rev (k s : text) : containsb (rev k) (rev s) = containsb k s.
Proof.
  destruct (containsb k s) eqn:E.
  - apply containsb_spec in E as (a & b & ->). apply containsb_spec.
    exists (rev b), (rev a). rewrite !rev_app_distr, app_assoc. done.
  - destruct (containsb (rev k) (rev s)) eqn:E'; [|done].
    apply containsb_spec in E' as (a & b & Hab).
    assert (containsb k s = true); [|congruence].
    apply containsb_spec. exists (rev b), (rev a).
    rewrite <- (rev_involutive s), Hab, !rev_app_distr, rev_involutive, app_assoc. done.
Qed.

(** A word of non-space characters is never found across whitespace added
    in front of a text. *)
Lemma containsb_spaces_l (k ws s : text) :
  Forall (fun c => is_space c = false) k -> k <> [] ->
  Forall (fun c => is_space c = true) ws ->
  containsb k (ws ++ s) = containsb k s.
Proof.
  intros Hk Hne. induction 1 as [|c ws Hc _ IH]; [done|].
  rewrite <- app_comm_cons, containsb_cons, IH.
  destruct k as [|x k]; [done|]. simpl.
  inversion Hk as [|? ? Hx _]. subst.
  destruct (ascii_eqb x c) eqn:E; [|done].
  apply ascii_eqb_eq in E. subst. congruence.
Qed.

Lemma containsb_spaces (k ws1 s ws2 : text) :
  Forall (fun c => is_space c = false) k -> k <> [] ->
  Forall (fun c => is_space c = true) ws1 -> Forall (fun c => is_space c = true) ws2 ->
  containsb k (ws1 ++ s ++ ws2) = containsb k s.
Proof.
  intros Hk Hne H1 H2. rewrite containsb_spaces_l by done.
  rewrite <- containsb_rev, rev_app_distr, containsb_spaces_l, containsb_rev.
  - done.
  - apply List.Forall_rev. done.
  - intros Hr. apply Hne. rewrite <- (rev_involutive k), Hr. done.
  - apply List.Forall_rev. done.
Qed.

Lemma unsafe_keywords_words :
  Forall (fun k => Forall (fun c => is_space c = false) k /\ k <> []) unsafe_keywords.
Proof. repeat constructor; discriminate. Qed.

Lemma existsb_ext_Forall {A} (f g : A -> bool) (l : list A) :
  Forall (fun x => f x = g x) l -> existsb f l = existsb g l.
Proof. induction 1 as [|x l Hx _ IH]; simpl; [done|]. rewrite Hx, IH. done. Qed.

(** [is_safe_query] ignores letter case and whitespace around the query:
    adding spaces, tabs or newlines before or after it, or lowercasing it,
    never changes the verdict. *)
Theorem is_safe_query_case_and_space (sql ws1 ws2 : text) :
  Forall (fun c => is_space c = true) ws1 -> Forall (fun c => is_space c = true) ws2 ->
  is_safe_query (ws1 ++ sql ++ ws2) = is_safe_query sql /\
  is_safe_query (py_lower sql) = is_safe_query sql.
Proof.
  intros H1 H2. split.
  - unfold is_safe_query.
    assert (Hl : py_lower (ws1 ++ sql ++ ws2) = ws1 ++ py_lower sql ++ ws2).
    { unfold py_lower. rewrite !map_app.
      fold (py_lower ws1) (py_lower sql) (py_lower ws2).
      rewrite (py_lower_spaces ws1), (py_lower_spaces ws2) by done. done. }
    rewrite Hl, py_strip_spaces by done. f_equal. f_equal.
    apply existsb_ext_Forall.
    eapply List.Forall_impl; [|apply unsafe_keywords_words].
    intros k [Hk Hne]. apply containsb_spaces; done.
  - unfold is_safe_query. rewrite py_lower_idem. done.
Qed.

Lemma is_safe_query_case_and_space_witness :
  is_safe_query (t "  " ++ t "SELECT name FROM users" ++ t "  ")
  = is_safe_query (t "SELECT name FROM users") /\
  is_safe_query (py_lower (t "SELECT name FROM users"))
  = is_safe_query (t "SELECT name FROM users").
Proof.
  apply is_safe_query_case_and_space; repeat constructor.
Defined.

(* ================================================================== *)
(** ** More of the converter *)

Section ClientFacts.
Context `{Collaborators}.

Lemma get_schema_hit (db_identifier : text) (w : cworld) (v : json) :
  schema_cache w !! db_identifier = Some v -> get_schema db_identifier w = (w, Ret v).
Proof.
  intros Hh. unfold get_schema, bind, cache_has, cache_get, ret. simpl.
  rewrite Hh. simpl. rewrite ?Hh. done.
Qed.

(** [generate_sql] when [get_schema] answers [v] and leaves [w1]. *)
Lemma generate_sql_with_schema (model nl_query db_identifier : text) (w w1 : cworld)
    (v : json) :
  get_schema db_identifier w = (w1, Ret v) ->
  generate_sql model nl_query db_identifier w =
  try_except
    (let* has_error := lift (py_contains (t "error") v) in
     if has_error then
       let* err := lift (py_get v (t "error") JNull) in
       ret (failed_result (t "Schema error: " ++ py_str err))
     else
       let* schema_str := lift (format_schema v) in
       let* content := chat model (build_prompt nl_query schema_str) in
       lift (parse_response content))
    (fun e => ret (failed_result (t "Generation failed: " ++ exn_msg e))) w1.
Proof.
  intros Hg. unfold generate_sql, try_except, bind at 1. rewrite Hg. reflexivity.
Qed.

Lemma generate_sql_cached_error (model nl_query db_identifier : text) (w : cworld)
    (kvs : list (text * json)) (err : json) :
  schema_cache w !! db_identifier = Some (JObj kvs) ->
  dict_lookup (t "error") kvs = Some err ->
  generate_sql model nl_query db_identifier w
  = (w, Ret (failed_result (t "Schema error: " ++ py_str err))).
Proof.
  intros Hh He. rewrite (generate_sql_with_schema _ _ _ w w (JObj kvs)) by
    (apply get_schema_hit; done).
  unfold try_except, bind, lift, ret. cbn -[t dict_lookup]. rewrite He. reflexivity.
Qed.

End ClientFacts.

(** On a cache hit, [generate_sql] reads no resource and leaves the cache
    as it was: its only I/O is at most one model call, whose prompt is
    built from the cached schema. *)
Theorem generate_sql_cache_hit `{Collaborators} (model nl_query db_identifier : text)
    (w : cworld) (v : json) :
  schema_cache w !! db_identifier = Some v ->
  let '(w', _) := generate_sql model nl_query db_identifier w in
  schema_cache w' = schema_cache w /\
  (io_log w' = io_log w \/
   exists s, format_schema v = Ret s /\
             io_log w' = io_log w ++ [EvChat model (build_prompt nl_query s)]).
Proof.
  intros Hh. rewrite (generate_sql_with_schema _ _ _ w w v) by (apply get_schema_hit; done).
  unfold try_except, bind, lift, ret, chat. simpl.
  repeat (case_match; simplify_eq; simpl in * ); eauto.
Qed.

Lemma generate_sql_cache_hit_witness :
  let w1 := fst (get_schema (t "mysql://schema") fresh) in
  let '(w', _) := generate_sql (t "qwen-plus") (t "list all users") (t "mysql://schema") w1 in
  schema_cache w' = schema_cache w1 /\
  (io_log w' = io_log w1 \/
   exists s, format_schema schema_doc = Ret s /\
             io_log w' = io_log w1 ++ [EvChat (t "qwen-plus") (build_prompt (t "list all users") s)]).
Proof.
  apply (@generate_sql_cache_hit collaborators (t "qwen-plus") (t "list all users")
           (t "mysql://schema") (fst (get_schema (t "mysql://schema") fresh)) schema_doc).
  vm_compute. reflexivity.
Defined.

(** An error dict cached for an identifier (the reply had no contents, or
    contents that are not JSON) makes every later [generate_sql] on it
    answer "Schema error: ..." at once, without any I/O: the failed read is
    never retried.  The first call, on an empty cache, reads the resource
    once and caches that dict. *)
Theorem generate_sql_error_sticky `{Collaborators} (model nl_query db_identifier : text)
    (w : cworld) (rc : text * list text) (kvs : list (text * json)) (err : json) :
  schema_cache w !! db_identifier = None ->
  read_resource (io_log w) db_identifier = Ret rc ->
  extract_resource_content rc = JObj kvs ->
  dict_lookup (t "error") kvs = Some err ->
  generate_sql model nl_query db_identifier w
  = (MkCWorld (<[db_identifier := JObj kvs]> (schema_cache w))
              (io_log w ++ [EvReadResource db_identifier]),
     Ret (failed_result (t "Schema error: " ++ py_str err))) /\
  forall model' nl_query',
    generate_sql model' nl_query' db_identifier
      (MkCWorld (<[db_identifier := JObj kvs]> (schema_cache w))
                (io_log w ++ [EvReadResource db_identifier]))
    = (MkCWorld (<[db_identifier := JObj kvs]> (schema_cache w))
                (io_log w ++ [EvReadResource db_identifier]),
       Ret (failed_result (t "Schema error: " ++ py_str err))).
Proof.
  intros Hn Hr Hx He. split.
  - rewrite (generate_sql_with_schema _ _ _ w
               (MkCWorld (<[db_identifier := JObj kvs]> (schema_cache w))
                         (io_log w ++ [EvReadResource db_identifier])) (JObj kvs)).
    + unfold try_except, bind, lift, ret. cbn -[t dict_lookup]. rewrite He. reflexivity.
    + unfold get_schema, bind, cache_has, cache_get, cache_store, session_read_resource, ret.
      simpl. rewrite Hn, Hr. simpl. rewrite Hx. simplify_map_eq. done.
  - intros model' nl_query'. apply (generate_sql_cached_error _ _ _ _ kvs); [|done].
    simpl. simplify_map_eq. done.
Qed.

Lemma generate_sql_error_sticky_witness :
  generate_sql (t "qwen-plus") (t "list all users") (t "mysql://empty") fresh
  = (MkCWorld (<[t "mysql://empty" := JObj [(t "error", JStr (t "No content found"))]]>
                 (schema_cache fresh))
              (io_log fresh ++ [EvReadResource (t "mysql://empty")]),
     Ret (failed_result (t "Schema error: " ++ py_str (JStr (t "No content found"))))) /\
  forall model' nl_query',
    generate_sql model' nl_query' (t "mysql://empty")
      (MkCWorld (<[t "mysql://empty" := JObj [(t "error", JStr (t "No content found"))]]>
                   (schema_cache fresh))
                (io_log fresh ++ [EvReadResource (t "mysql://empty")]))
    = (MkCWorld (<[t "mysql://empty" := JObj [(t "error", JStr (t "No content found"))]]>
                   (schema_cache fresh))
                (io_log fresh ++ [EvReadResource (t "mysql://empty")]),
       Ret (failed_result (t "Schema error: " ++ py_str (JStr (t "No content found"))))).
Proof.
  apply (@generate_sql_error_sticky collaborators (t "qwen-plus") (t "list all users")
           (t "mysql://empty") fresh (t "contents", [])); reflexivity.
Defined.

(* ================================================================== *)
(** ** More of [_parse_response] and [_clean_sql] *)

(** A text with no whitespace at either end is its own [strip()]. *)
Lemma py_strip_fixed (z : text) :
  (forall c, hd_error z = Some c -> is_space c = false) ->
  (forall c, hd_error (rev z) = Some c -> is_space c = false) ->
  py_strip z = z.
Proof.
  intros Hh Hl. unfold py_strip, py_rstrip, py_lstrip.
  destruct z as [|c z]; [done|].
  assert (H1 : drop_while is_space (c :: z) = c :: z)
    by (simpl; rewrite (Hh c eq_refl); done).
  rewrite H1.
  destruct (rev (c :: z)) as [|d r] eqn:E.
  { apply (f_equal (@length ascii)) in E. rewrite length_rev in E. discriminate. }
  assert (Hd : is_space d = false) by (apply Hl; done).
  simpl. rewrite Hd, <- E, rev_involutive. done.
Qed.

Lemma drop_while_head (f : ascii -> bool) (s : text) (c : ascii) :
  hd_error (drop_while f s) = Some c -> f c = false.
Proof.
  induction s as [|x s IH]; simpl; [discriminate|].
  destruct (f x) eqn:E; [done|]. simpl. intros Hc. injection Hc as <-. done.
Qed.

(** Dropping a prefix keeps the last character. *)
Lemma drop_while_last (f : ascii -> bool) (s : text) (c : ascii) :
  hd_error (rev s) = Some c -> drop_while f s <> [] ->
  hd_error (rev (drop_while f s)) = Some c.
Proof.
  intros Hs Hne. destruct (drop_while_suffix f s) as [p Hp].
  destruct (drop_while f s) as [|x d] using rev_ind; [done|].
  rewrite rev_app_distr. simpl.
  rewrite Hp, app_assoc, rev_app_distr in Hs. simpl in Hs. done.
Qed.

Lemma py_strip_idem (x : text) : py_strip (py_strip x) = py_strip x.
Proof.
  apply py_strip_fixed.
  - intros c Hc. unfold py_strip, py_rstrip, py_lstrip in Hc.
    set (y := drop_while is_space x) in *.
    destruct (drop_while is_space (rev y)) as [|e r] eqn:E; [discriminate|].
    rewrite <- E in Hc.
    destruct y as [|d y'] eqn:Ey; [simpl in E; discriminate|].
    rewrite <- Ey in *.
    assert (Hd : is_space d = false).
    { apply (drop_while_head is_space x). subst y. rewrite Ey. done. }
    assert (Hlast : hd_error (rev (rev y)) = Some d) by (rewrite rev_involutive, Ey; done).
    rewrite (drop_while_last is_space (rev y) d) in Hc; [congruence | done | congruence].
  - intros c Hc. unfold py_strip, py_rstrip in Hc. rewrite rev_involutive in Hc.
    apply drop_while_head in Hc. done.
Qed.

Lemma clean_sql_stripped (s : text) : py_strip (clean_sql s) = clean_sql s.
Proof. unfold clean_sql. apply py_strip_idem. Qed.

Lemma clean_sql_nonempty (s : text) : text_eqb (clean_sql s) [] = false.
Proof.
  destruct (proj1 (ends_with_char_spec _ _) (clean_sql_ends_with s)) as [u Hu].
  rewrite Hu. destruct u; done.
Qed.

Lemma text_eqb_neq (a b : text) : a <> b -> text_eqb a b = false.
Proof. intros Hne. destruct (text_eqb a b) eqn:E; [|done]. apply text_eqb_eq in E. done. Qed.

(** [_parse_response] on a JSON object with a string [sql]: [sql] is
    replaced by its cleaned form; [error] is set (to the model's own
    [error] if it gave one, else "Generated SQL is empty") exactly when the
    cleaned [sql] is [;], and is otherwise left as the model gave it; every
    other key keeps the model's value. *)
Theorem parse_response_sql `{Collaborators} (response : text)
    (kvs : list (text * json)) (s : text) :
  json_loads response = Some (JObj kvs) ->
  dict_lookup (t "sql") kvs = Some (JStr s) ->
  exists kvs', parse_response (Some response) = Ret (JObj kvs') /\
    dict_lookup (t "sql") kvs' = Some (JStr (clean_sql s)) /\
    dict_lookup (t "error") kvs' =
      (if text_eqb (clean_sql s) (t ";")
       then Some (match dict_lookup (t "error") kvs with
                  | Some e => e | None => JStr empty_sql_msg end)
       else dict_lookup (t "error") kvs) /\
    (forall k, k <> t "sql" -> k <> t "error" -> dict_lookup k kvs' = dict_lookup k kvs).
Proof.
  intros Hj Hs. unfold parse_response. rewrite Hj.
  cbn -[clean_sql dict_lookup dict_set t]. rewrite Hs.
  cbn -[clean_sql dict_lookup dict_set t]. rewrite dict_lookup_set_eq.
  cbn -[clean_sql dict_lookup dict_set t text_eqb].
  rewrite clean_sql_stripped, clean_sql_nonempty. cbn [orb].
  destruct (text_eqb (clean_sql s) (t ";")) eqn:E.
  - rewrite dict_lookup_set_ne by reflexivity. cbn -[clean_sql dict_lookup dict_set t].
    eexists. split; [reflexivity|]. split; [|split].
    + rewrite dict_lookup_set_ne by reflexivity. apply dict_lookup_set_eq.
    + apply dict_lookup_set_eq.
    + intros k H1 H2. rewrite !dict_lookup_set_ne by (apply text_eqb_neq; done). done.
  - eexists. split; [reflexivity|]. split; [|split].
    + apply dict_lookup_set_eq.
    + apply dict_lookup_set_ne. reflexivity.
    + intros k H1 H2. apply dict_lookup_set_ne, text_eqb_neq. done.
Qed.

Lemma parse_response_sql_witness :
  exists kvs', parse_response (Some reply_ok) = Ret (JObj kvs') /\
    dict_lookup (t "sql") kvs' = Some (JStr (clean_sql (t "```sql SELECT * FROM `users````"))) /\
    dict_lookup (t "error") kvs' =
      (if text_eqb (clean_sql (t "```sql SELECT * FROM `users````")) (t ";")
       then Some (match dict_lookup (t "error") (match reply_ok_value with
                                                  | JObj l => l | _ => [] end) with
                  | Some e => e | None => JStr empty_sql_msg end)
       else dict_lookup (t "error") (match reply_ok_value with JObj l => l | _ => [] end)) /\
    (forall k, k <> t "sql" -> k <> t "error" ->
       dict_lookup k kvs' = dict_lookup k (match reply_ok_value with JObj l => l | _ => [] end)).
Proof.
  apply (@parse_response_sql collaborators reply_ok
           (match reply_ok_value with JObj l => l | _ => [] end)
           (t "```sql SELECT * FROM `users````")); vm_compute; reflexivity.
Defined.

Lemma is_backtick_eq (a : ascii) : is_backtick a = true -> a = "`"%char.
Proof. unfold is_backtick, ascii_eqb. intros Ha. apply Ascii.eqb_eq. exact Ha. Qed.

Lemma prefixb_fence (a b c : ascii) (rest : text) :
  prefixb fence (a :: b :: c :: rest) = is_backtick a && is_backtick b && is_backtick c.
Proof.
  unfold fence, is_backtick. cbn [t list_ascii_of_string prefixb].
  rewrite andb_true_r, andb_assoc. reflexivity.
Qed.

(** Text without a fence is left alone by the fence removal. *)
Lemma remove_fences_id (s : text) :
  containsb fence s = false -> remove_fences s = s.
Proof.
  induction s as [|a s1 IH]; [done|]. intros Hc.
  rewrite containsb_cons in Hc. apply orb_false_iff in Hc as [Hp Hc].
  rewrite remove_fences_keep, IH; [done|done|].
  intros b c rest ->. rewrite prefixb_fence in Hp. exact Hp.
Qed.

Lemma remove_fences_one_fence (a : ascii) : remove_fences (a :: fence) = [a].
Proof.
  unfold fence. cbn [t list_ascii_of_string]. rewrite remove_fences_unfold.
  destruct (is_backtick a) eqn:E.
  - apply is_backtick_eq in E as ->. reflexivity.
  - reflexivity.
Qed.

(** A closing fence after fence-free text is removed, whatever backticks
    that text ends with. *)
Lemma remove_fences_snoc_fence (s : text) :
  containsb fence s = false -> remove_fences (s ++ fence) = s.
Proof.
  induction s as [|a s1 IH]; [reflexivity|]. intros Hc.
  pose proof Hc as Hc0.
  rewrite containsb_cons in Hc. apply orb_false_iff in Hc as [Hp Hc].
  destruct s1 as [|b [|c rest]].
  - apply remove_fences_one_fence.
  - simpl app. unfold fence. cbn [t list_ascii_of_string].
    rewrite remove_fences_unfold.
    destruct (is_backtick a) eqn:Ea; [destruct (is_backtick b) eqn:Eb|].
    + apply is_backtick_eq in Ea as ->. apply is_backtick_eq in Eb as ->.
      reflexivity.
    + cbn [andb]. f_equal. apply remove_fences_one_fence.
    + cbn [andb]. f_equal. apply remove_fences_one_fence.
  - rewrite prefixb_fence in Hp. simpl app.
    rewrite remove_fences_unfold, Hp. f_equal. apply IH. exact Hc.
Qed.

(** [_clean_sql] on a [```sql] code block (the language tag in any case)
    whose body has no fence gives what it gives on the body alone. *)
Theorem clean_sql_fenced `{Collaborators} (x y z : ascii) (s : text) :
  is_s x && is_q y && is_l z = true ->
  containsb fence s = false ->
  clean_sql (fence ++ [x; y; z] ++ s ++ fence) = clean_sql s.
Proof.
  intros Htag Hs. unfold clean_sql.
  assert (Hr : remove_fences (fence ++ [x; y; z] ++ s ++ fence) = s).
  { unfold fence at 1. cbn [t list_ascii_of_string app].
    rewrite remove_fences_unfold. cbn [is_backtick ascii_eqb Ascii.eqb andb].
    destruct (s ++ fence) as [|p q] eqn:E; [destruct s; discriminate|].
    rewrite Htag, <- E. apply remove_fences_snoc_fence. exact Hs. }
  rewrite Hr, (remove_fences_id s Hs). reflexivity.
Qed.

Lemma clean_sql_fenced_witness :
  is_s "S"%char && is_q "q"%char && is_l "L"%char = true /\
  containsb fence (t " SELECT 1 ") = false /\
  clean_sql (fence ++ ["S"; "q"; "L"]%char ++ t " SELECT 1 " ++ fence) =
  clean_sql (t " SELECT 1 ").
Proof.
  split; [vm_compute; reflexivity|]. split; [vm_compute; reflexivity|].
  apply (@clean_sql_fenced collaborators); vm_compute; reflexivity.
Defined.

(** [_clean_sql] leaves alone text that has no fence, no surrounding
    whitespace, does not start with a quote and already ends in [;]. *)
Theorem clean_sql_clean_input `{Collaborators} (s : text) :
  containsb fence s = false -> py_strip s = s ->
  ends_with_char ";"%char s = true ->
  (forall x, hd_error s = Some x -> is_quote x = false) ->
  clean_sql s = s.
Proof.
  intros Hf Hst He Hh. unfold clean_sql.
  rewrite (remove_fences_id s Hf), Hst.
  assert (Hq : strip_quotes s = s).
  { rewrite <- (strip_quotes_runs [] s []) at 2; [by rewrite app_nil_r|
      constructor|constructor|exact Hh|].
    apply ends_with_char_spec in He as (u & ->).
    rewrite rev_app_distr. intros x [= <-]. reflexivity. }
  rewrite Hq, He. exact Hst.
Qed.

Lemma clean_sql_clean_input_witness :
  clean_sql (t "SELECT name FROM users;") = t "SELECT name FROM users;".
Proof.
  apply (@clean_sql_clean_input collaborators); try (vm_compute; reflexivity).
  intros x Hx. vm_compute in Hx. injection Hx as <-. reflexivity.
Defined.
